(** * The in-memory user service of [backend/app.py]

    A shallow embedding of the four Flask handlers ([get_users],
    [create_user], [update_user], [delete_user]) over the module-level
    list [users_data], and the properties of the service proved on it.

    Python values are embedded as follows.
    - A [str] is the list of its Unicode code points.
    - A value parsed from a JSON body is a [json]; a dict is the
      association list of its items, and subscripting takes the first
      binding of a key.
    - A user record is a dict whose values are [str]: the program only
      ever stores [str(uuid.uuid4())] and results of [str.strip] in one.
    - [users_data] is threaded through every handler as explicit state;
      exceptions and early [return]s are outcomes of a small monad, so
      that the state at the point of a [raise] is the state the
      [except] clause sees. *)

From Stdlib Require Import Ascii String List NArith ZArith Bool Lia.
From Stdlib Require Import Floats.SpecFloat.
From ExtLib Require Import Structures.Monad Data.Monads.EitherMonad.
Import ListNotations.
Import MonadNotation.
Local Open Scope list_scope.
Local Open Scope monad_scope.

(** ** Python strings *)

Definition str := list N.

(** A source literal, code point by code point. *)
Definition lit (s : string) : str := map N_of_ascii (list_ascii_of_string s).

Fixpoint str_eqb (a b : str) : bool :=
  match a, b with
  | [], [] => true
  | x :: a', y :: b' => N.eqb x y && str_eqb a' b'
  | _, _ => false
  end.

(** [str.isspace] on one code point: the code points CPython's
    [_PyUnicode_IsWhitespace] accepts. *)
Definition is_space (c : N) : bool :=
  ((9 <=? c) && (c <=? 13)
   || (28 <=? c) && (c <=? 32)
   || (c =? 133) || (c =? 160) || (c =? 5760)
   || (8192 <=? c) && (c <=? 8202)
   || (c =? 8232) || (c =? 8233) || (c =? 8239) || (c =? 8287)
   || (c =? 12288))%N.

Fixpoint lstrip (s : str) : str :=
  match s with
  | c :: s' => if is_space c then lstrip s' else s
  | [] => []
  end.

Definition rstrip (s : str) : str := rev (lstrip (rev s)).

(** [s.strip()] *)
Definition strip (s : str) : str := rstrip (lstrip s).

Fixpoint startswith (s p : str) : bool :=
  match p, s with
  | [], _ => true
  | x :: p', y :: s' => N.eqb x y && startswith s' p'
  | _ :: _, [] => false
  end.

(** [p in s] for two strings: [p] occurs in [s] as a substring. *)
Fixpoint str_contains (s p : str) : bool :=
  startswith s p ||
  match s with
  | [] => false
  | _ :: s' => str_contains s' p
  end.

(** ** Values *)

(** What [json.loads] can produce. *)
#[local] Set Warnings "-register-all".
Inductive json : Type :=
| JNull
| JBool (b : bool)
| JInt (z : Z)
| JFloat (f : spec_float)
| JStr (s : str)
| JList (l : list json)
| JDict (d : list (str * json)).

Fixpoint lookup {A : Type} (k : str) (d : list (str * A)) : option A :=
  match d with
  | [] => None
  | (k', v) :: d' => if str_eqb k' k then Some v else lookup k d'
  end.

(** [type(v).__name__] *)
Definition type_name (v : json) : str :=
  match v with
  | JNull => lit "NoneType"
  | JBool _ => lit "bool"
  | JInt _ => lit "int"
  | JFloat _ => lit "float"
  | JStr _ => lit "str"
  | JList _ => lit "list"
  | JDict _ => lit "dict"
  end.

(** [v == s] where [s] is a [str]: only an equal [str] compares equal. *)
Definition eq_str (v : json) (s : str) : bool :=
  match v with
  | JStr t => str_eqb t s
  | _ => false
  end.

(** ** Exceptions, responses, the store *)

Inductive exn : Type :=
| TypeError (msg : str)
| AttributeError (msg : str)
| KeyError (key : str)
| IndexError (msg : str)
| OtherError (msg : str).

(** [repr] of a key made of letters only, as every key subscripted in
    the program is. *)
Definition repr_key (k : str) : str := lit "'" ++ k ++ lit "'".

(** [str(e)] *)
Definition str_exn (e : exn) : str :=
  match e with
  | TypeError m | AttributeError m | IndexError m | OtherError m => m
  | KeyError k => repr_key k
  end.

Record response : Type := mkResponse { body : json; status : Z }.

Definition user := list (str * str).

Definition store := list user.

(** What [jsonify] serialises a user record to. *)
Definition json_of_user (u : user) : json :=
  JDict (map (fun kv => (fst kv, JStr (snd kv))) u).

(** [jsonify(v)] alone answers 200; [jsonify(v), code] answers [code]. *)
Definition jsonify (v : json) : response := mkResponse v 200.

Definition with_status (r : response) (code : Z) : response :=
  mkResponse (body r) code.

(** ** The handler monad

    A handler body runs over [users_data] and ends in one of three ways:
    it falls through to the next statement, it executes [return], or it
    raises.  The store is returned in all three cases. *)

Inductive outcome (A : Type) : Type :=
| Next (a : A)
| Return (r : response)
| Raise (e : exn).

Arguments Next {A} a.
Arguments Return {A} r.
Arguments Raise {A} e.

Record M (A : Type) : Type := mkM { run : store -> outcome A * store }.

Arguments mkM {A} _.
Arguments run {A} _ _.

Definition M_ret {A} (a : A) : M A := mkM (fun st => (Next a, st)).

Definition M_bind {A B} (m : M A) (k : A -> M B) : M B :=
  mkM (fun st =>
         match run m st with
         | (Next a, st') => run (k a) st'
         | (Return r, st') => (Return r, st')
         | (Raise e, st') => (Raise e, st')
         end).

#[global] Instance Monad_M : Monad M := {| ret := @M_ret; bind := @M_bind |}.

Definition return_ {A} (r : response) : M A := mkM (fun st => (Return r, st)).

Definition raise {A} (e : exn) : M A := mkM (fun st => (Raise e, st)).

(** The current value of the global [users_data]. *)
Definition get_users_data : M store := mkM (fun st => (Next st, st)).

(** Lift the result of an operation that touches no state. *)
Definition lift {A} (r : exn + A) : M A :=
  match r with
  | inl e => raise e
  | inr a => ret a
  end.

(** [try: body  except Exception as e: return jsonify({"error": str(e)}), 500]
    around a body that ends in [return] on every path: such a body has
    no value to fall through with. *)
Definition try_except (m : M Empty_set) (st : store) : response * store :=
  match run m st with
  | (Return r, st') => (r, st')
  | (Raise e, st') =>
      (with_status (jsonify (JDict [(lit "error", JStr (str_exn e))])) 500, st')
  | (Next a, _) => match a with end
  end.

(** ** The operations of Python the handlers use *)

(** [field in data] *)
Definition contains (field : str) (data : json) : exn + bool :=
  match data with
  | JDict d => inr (match lookup field d with Some _ => true | None => false end)
  | JList l => inr (existsb (fun v => eq_str v field) l)
  | JStr s => inr (str_contains s field)
  | _ =>
      inl (TypeError (lit "argument of type '" ++ type_name data
                        ++ lit "' is not iterable"))
  end.

(** [data[field]] with a [str] subscript *)
Definition getitem (data : json) (field : str) : exn + json :=
  match data with
  | JDict d =>
      match lookup field d with
      | Some v => inr v
      | None => inl (KeyError field)
      end
  | JList _ => inl (TypeError (lit "list indices must be integers or slices, not str"))
  | JStr _ => inl (TypeError (lit "string indices must be integers, not 'str'"))
  | _ =>
      inl (TypeError (lit "'" ++ type_name data
                        ++ lit "' object is not subscriptable"))
  end.

(** [v.strip()]: only a [str] has the method. *)
Definition call_strip (v : json) : exn + str :=
  match v with
  | JStr s => inr (strip s)
  | _ =>
      inl (AttributeError (lit "'" ++ type_name v
                             ++ lit "' object has no attribute 'strip'"))
  end.

(** [user[key]] on a stored record *)
Definition user_getitem (u : user) (key : str) : exn + str :=
  match lookup key u with
  | Some v => inr v
  | None => inl (KeyError key)
  end.

(** Truth value of a [str] *)
Definition truthy (s : str) : bool :=
  match s with
  | [] => false
  | _ :: _ => true
  end.

(** [users_data.append(u)] *)
Definition append (u : user) : M unit := mkM (fun st => (Next tt, st ++ [u])).

(** [users_data.pop(i)] for an index [i >= 0] *)
Definition pop (i : nat) : M user :=
  mkM (fun st =>
         match nth_error st i with
         | Some u => (Next u, firstn i st ++ skipn (S i) st)
         | None => (Raise (IndexError (lit "pop index out of range")), st)
         end).

(** [users_data[i]] for an index [i >= 0] *)
Definition users_data_at (i : nat) : M user :=
  mkM (fun st =>
         match nth_error st i with
         | Some u => (Next u, st)
         | None => (Raise (IndexError (lit "list index out of range")), st)
         end).

(** ** [uuid.uuid4] and [str] of a UUID

    [uuid4()] is [UUID(bytes=os.urandom(16), version=4)].  The sixteen
    random bytes enter the model as the integer they denote, big-endian;
    [uuid4] keeps its low 128 bits, so that every [N] stands for a draw. *)

Definition uuid4 (urandom : N) : N :=
  let int := N.land urandom (N.ones 128) in
  let int := N.ldiff int (N.shiftl 0xc000 48) in
  let int := N.lor int (N.shiftl 0x8000 48) in
  let int := N.ldiff int (N.shiftl 0xf000 64) in
  N.lor int (N.shiftl 4 76).

Definition hex_digit (n : N) : N :=
  nth (N.to_nat n) (lit "0123456789abcdef") 0%N.

(** The lowest [n] hexadecimal digits of [i], most significant first. *)
Fixpoint hex_digits (n : nat) (i : N) : str :=
  match n with
  | O => []
  | S n' => hex_digit (N.land (N.shiftr i (4 * N.of_nat n')) 15) :: hex_digits n' i
  end.

(** [str(u)]: ['%032x' % int] cut as 8-4-4-4-12. *)
Definition str_uuid (int : N) : str :=
  let hex := hex_digits 32 int in
  firstn 8 hex ++ lit "-" ++ firstn 4 (skipn 8 hex) ++ lit "-"
    ++ firstn 4 (skipn 12 hex) ++ lit "-" ++ firstn 4 (skipn 16 hex)
    ++ lit "-" ++ skipn 20 hex.

(** ** The handlers *)

Definition error_body (msg : str) : json := JDict [(lit "error", JStr msg)].

(** [get_users] *)
Definition get_users (users_data : store) : response * store :=
  (jsonify (JDict [(lit "users", JList (map json_of_user users_data))]),
   users_data).

Definition required_fields : list str :=
  [lit "name"; lit "surname"; lit "email"; lit "company"; lit "jobTitle"].

(** The [for field in required_fields] loop of [create_user]. *)
Fixpoint check_required (data : json) (fields : list str) : M unit :=
  match fields with
  | [] => ret tt
  | field :: rest =>
      present <- lift (contains field data) ;;
      missing <- (if negb present then ret true
                  else v <- lift (getitem data field) ;;
                       s <- lift (call_strip v) ;;
                       ret (negb (truthy s))) ;;
      if missing : bool
      then return_ (with_status
                      (jsonify (error_body (lit "Missing required field: " ++ field)))
                      400)
      else check_required data rest
  end.

(** [any(user['email'] == data['email'] for user in users_data)] *)
Fixpoint any_email (data : json) (users : list user) : exn + bool :=
  match users with
  | [] => inr false
  | user :: rest =>
      e <- user_getitem user (lit "email") ;;
      v <- getitem data (lit "email") ;;
      if eq_str v e then inr true else any_email data rest
  end.

(** [data[field].strip()] *)
Definition stripped (data : json) (field : str) : exn + str :=
  v <- getitem data field ;; call_strip v.

(** The body of the [try] in [create_user]; [get_json] is what
    [request.get_json()] returned or raised, [urandom] the random draw
    of [uuid.uuid4()]. *)
Definition create_user_body (get_json : exn + json) (urandom : N) : M Empty_set :=
  data <- lift get_json ;;
  check_required data required_fields ;;
  users_data <- get_users_data ;;
  dup <- lift (any_email data users_data) ;;
  if dup : bool
  then return_ (with_status (jsonify (error_body (lit "Email already exists"))) 400)
  else
    let uuid := str_uuid (uuid4 urandom) in
    name <- lift (stripped data (lit "name")) ;;
    surname <- lift (stripped data (lit "surname")) ;;
    email <- lift (stripped data (lit "email")) ;;
    company <- lift (stripped data (lit "company")) ;;
    jobTitle <- lift (stripped data (lit "jobTitle")) ;;
    let new_user : user :=
      [(lit "uuid", uuid); (lit "name", name); (lit "surname", surname);
       (lit "email", email); (lit "company", company);
       (lit "jobTitle", jobTitle)] in
    append new_user ;;
    return_ (with_status (jsonify (json_of_user new_user)) 201).

Definition create_user (get_json : exn + json) (urandom : N)
  : store -> response * store :=
  try_except (create_user_body get_json urandom).

(** The [for i, user in enumerate(users_data)] search of [update_user]:
    the index the loop leaves in [user_index]. *)
Fixpoint find_index (user_uuid : str) (i : nat) (users : list user)
  : exn + option nat :=
  match users with
  | [] => inr None
  | user :: rest =>
      u <- user_getitem user (lit "uuid") ;;
      if str_eqb u user_uuid then inr (Some i)
      else find_index user_uuid (S i) rest
  end.

Definition update_user_body (user_uuid : str) (get_json : exn + json)
  : M Empty_set :=
  data <- lift get_json ;;
  users_data <- get_users_data ;;
  user_index <- lift (find_index user_uuid 0 users_data) ;;
  match user_index with
  | None => return_ (with_status (jsonify (error_body (lit "User not found"))) 404)
  | Some i => u <- users_data_at i ;; return_ (jsonify (json_of_user u))
  end.

Definition update_user (user_uuid : str) (get_json : exn + json)
  : store -> response * store :=
  try_except (update_user_body user_uuid get_json).

(** The loop of [delete_user].  It leaves the list untouched until the
    iteration that pops and returns, so it runs over the list as it was
    when the loop started. *)
Fixpoint delete_loop (user_uuid : str) (i : nat) (users : list user) : M unit :=
  match users with
  | [] => ret tt
  | user :: rest =>
      u <- lift (user_getitem user (lit "uuid")) ;;
      if str_eqb u user_uuid
      then deleted_user <- pop i ;;
           return_ (jsonify (JDict [(lit "message", JStr (lit "User deleted successfully"));
                                    (lit "user", json_of_user deleted_user)]))
      else delete_loop user_uuid (S i) rest
  end.

Definition delete_user_body (user_uuid : str) : M Empty_set :=
  users_data <- get_users_data ;;
  delete_loop user_uuid 0 users_data ;;
  return_ (with_status (jsonify (error_body (lit "User not found"))) 404).

Definition delete_user (user_uuid : str) : store -> response * store :=
  try_except (delete_user_body user_uuid).

(** ** The service as a transition system *)

Inductive request : Type :=
| GetUsers
| CreateUser (get_json : exn + json) (urandom : N)
| UpdateUser (user_uuid : str) (get_json : exn + json)
| DeleteUser (user_uuid : str).

(** The route table. *)
Definition handle (req : request) : store -> response * store :=
  match req with
  | GetUsers => get_users
  | CreateUser get_json urandom => create_user get_json urandom
  | UpdateUser user_uuid get_json => update_user user_uuid get_json
  | DeleteUser user_uuid => delete_user user_uuid
  end.

(** [users_data = []] at start-up; every request moves the store on. *)
Inductive reachable : store -> Prop :=
| reach_init : reachable []
| reach_step (req : request) (st : store) :
    reachable st -> reachable (snd (handle req st)).

(** The store after a sequence of requests, oldest first. *)
Definition serve (reqs : list request) (st : store) : store :=
  fold_left (fun s req => snd (handle req s)) reqs st.

(** ** Vocabulary of the statements *)

(** The keys of a user record whose identifier is under [idkey]. *)
Definition record_keys (idkey : str) : list str :=
  [idkey; lit "name"; lit "surname"; lit "email"; lit "company";
   lit "jobTitle"].

(** The keys [create_user] gives a record, in the order of the literal. *)
Definition user_keys : list str := record_keys (lit "uuid").

Definition has_user_keys (u : user) : Prop := map fst u = user_keys.

Definition store_ok (st : store) : Prop := Forall has_user_keys st.

Definition uuid_of (u : user) : option str := lookup (lit "uuid") u.

Definition email_of (u : user) : option str := lookup (lit "email") u.

(** No two stored records have equal email values. *)
Definition emails_unique (st : store) : Prop := NoDup (map email_of st).

(** A JSON object with exactly the keys [idkey], name, surname, email,
    company and jobTitle, each bound once and to a string. *)
Definition record_shape (idkey : str) (v : json) : Prop :=
  exists d,
    v = JDict d /\
    NoDup (map fst d) /\
    (forall k, In k (map fst d) <-> In k (record_keys idkey)) /\
    (forall k x, In (k, x) d -> exists s, x = JStr s).

(** A required field the loop of [create_user] lets through: present,
    a string, and not empty once stripped. *)
Definition field_filled (d : list (str * json)) (f : str) : Prop :=
  exists s, lookup f d = Some (JStr s) /\ strip s <> [].

(** A required field that is absent, or a string that is empty once
    stripped. *)
Definition field_missing (d : list (str * json)) (f : str) : Prop :=
  lookup f d = None \/ exists s, lookup f d = Some (JStr s) /\ strip s = [].

(** A required field that is present as a string that is not empty,
    blank or not. *)
Definition field_nonempty (d : list (str * json)) (f : str) : Prop :=
  exists s, lookup f d = Some (JStr s) /\ s <> [].

(** A required field that is present and bound to something other than
    a string. *)
Definition field_nonstring (d : list (str * json)) (f : str) : Prop :=
  exists v, lookup f d = Some v /\ forall s, v <> JStr s.

(** A body that gets past the loop over [required_fields]. *)
Definition passes_checks (data : json) : Prop :=
  exists d, data = JDict d /\ Forall (field_filled d) required_fields.

(** The record [create_user] builds from a body and a random draw. *)
Definition new_user_of (urandom : N) (name surname email company jobTitle : str)
  : user :=
  [(lit "uuid", str_uuid (uuid4 urandom)); (lit "name", strip name);
   (lit "surname", strip surname); (lit "email", strip email);
   (lit "company", strip company); (lit "jobTitle", strip jobTitle)].

(** The answers of the service. *)
Definition missing_response (f : str) : response :=
  mkResponse (error_body (lit "Missing required field: " ++ f)) 400.

Definition conflict_response : response :=
  mkResponse (error_body (lit "Email already exists")) 400.

Definition not_found_response : response :=
  mkResponse (error_body (lit "User not found")) 404.

Definition internal_error_response (msg : str) : response :=
  mkResponse (error_body msg) 500.

Definition deleted_body (u : user) : json :=
  JDict [(lit "message", JStr (lit "User deleted successfully"));
         (lit "user", json_of_user u)].

(** What the service promises about the records it hands out, for a
    given name of the identifier key: the record of a 201 to a create,
    every record of a listing, the record of a 200 to an update, and the
    record under "user" of a 200 to a delete have that shape. *)
Definition returns_records_keyed (idkey : str) (st : store) : Prop :=
  (forall get_json urandom,
      status (fst (create_user get_json urandom st)) = 201%Z ->
      record_shape idkey (body (fst (create_user get_json urandom st))))
  /\ (exists l,
         fst (get_users st) = mkResponse (JDict [(lit "users", JList l)]) 200
         /\ Forall (record_shape idkey) l)
  /\ (forall user_uuid get_json,
         status (fst (update_user user_uuid get_json st)) = 200%Z ->
         record_shape idkey (body (fst (update_user user_uuid get_json st))))
  /\ (forall user_uuid,
         status (fst (delete_user user_uuid st)) = 200%Z ->
         exists u,
           body (fst (delete_user user_uuid st))
           = JDict [(lit "message", JStr (lit "User deleted successfully"));
                    (lit "user", u)]
           /\ record_shape idkey u).

(** A status that reports a failure. *)
Definition is_error (code : Z) : Prop :=
  code = 400%Z \/ code = 404%Z \/ code = 500%Z.

(** A string [str.strip] leaves as it is. *)
Definition trimmed (s : str) : Prop := strip s = s.

(** A string that does not start with whitespace. *)
Definition no_lead (s : str) : Prop :=
  match s with
  | [] => True
  | c :: _ => is_space c = false
  end.

(** A stored record as [create_user] makes them: an identifier of 36
    characters, and each required field a non-empty, trimmed string. *)
Definition record_clean (u : user) : Prop :=
  (exists i, uuid_of u = Some i /\ length i = 36)
  /\ Forall (fun f => exists v, lookup f u = Some v /\ v <> [] /\ trimmed v)
       required_fields.

(** A request that does not register an address with blanks around it. *)
Definition email_trimmed (req : request) : Prop :=
  match req with
  | CreateUser (inr data) _ =>
      forall e, getitem data (lit "email") = inr (JStr e) -> trimmed e
  | _ => True
  end.

(** A body that is [None], a [bool] or a number. *)
Definition scalar (data : json) : Prop :=
  match data with
  | JNull | JBool _ | JInt _ | JFloat _ => True
  | _ => False
  end.

(** No two stored records have the same identifier. *)
Definition uuids_unique (st : store) : Prop := NoDup (map uuid_of st).

(** The draw of a registration prints to an identifier no stored record
    has. *)
Definition fresh_draw (req : request) (st : store) : Prop :=
  match req with
  | CreateUser _ urandom =>
      forall u, In u st -> uuid_of u <> Some (str_uuid (uuid4 urandom))
  | _ => True
  end.

(** The body [get_users] answers with for a store. *)
Definition listing (records : list json) : response :=
  mkResponse (JDict [(lit "users", JList records)]) 200.

(** The characters of a printed UUID. *)
Definition uuid_alphabet : str := lit "0123456789abcdef-".

(** [s[i:i+1]] *)
Definition char_at (s : str) (i : nat) : str := firstn 1 (skipn i s).

(** ** Sample requests *)

(** A JSON object of strings, written with source literals. *)
Definition obj (items : list (string * string)) : list (str * json) :=
  map (fun kv => (lit (fst kv), JStr (lit (snd kv)))) items.

Definition ana : list (str * json) :=
  obj [("name", " Ana "); ("surname", "Lee"); ("email", "a@x.com");
       ("company", "Acme"); ("jobTitle", "Eng")]%string.

(** The same person, the address typed with a leading blank. *)
Definition ana_again : list (str * json) :=
  obj [("name", "Ana"); ("surname", "Lee"); ("email", " a@x.com");
       ("company", "Acme"); ("jobTitle", "Eng")]%string.

Definition no_company : list (str * json) :=
  obj [("name", "Ana"); ("surname", "Lee"); ("email", "a@x.com");
       ("company", "   "); ("jobTitle", "")]%string.

(** A blank name followed by a surname that is not a string. *)
Definition blank_then_null : list (str * json) :=
  [(lit "name", JStr (lit " ")); (lit "surname", JNull)].

(** A filled name followed by a surname that is a number. *)
Definition name_then_number : list (str * json) :=
  [(lit "name", JStr (lit "Ana")); (lit "surname", JInt 7)].

(** A JSON array, and a JSON string, that hold the word "name". *)
Definition array_with_name : json := JList [JInt 1; JStr (lit "name")].

Definition text_with_name : json := JStr (lit "my name is Ana").

(** Somebody else. *)
Definition bob : list (str * json) :=
  obj [("name", "Bob"); ("surname", "Ray"); ("email", "b@x.com");
       ("company", "Acme"); ("jobTitle", "Ops")]%string.

(** A third person. *)
Definition carl : list (str * json) :=
  obj [("name", "Carl"); ("surname", "Orr"); ("email", "c@x.com");
       ("company", "Bolt"); ("jobTitle", "QA")]%string.

(** The store after Ana registered, with random draw 5. *)
Definition one_user : store := serve [CreateUser (inr (JDict ana)) 5] [].

(** The store after Ana, Bob and Carl registered; the draws of Bob and
    Carl collide, so both carry the identifier that ends in 6. *)
Definition three_users : store :=
  serve [CreateUser (inr (JDict ana)) 5; CreateUser (inr (JDict bob)) 6;
         CreateUser (inr (JDict carl)) 6] [].

(** ** Strings and dicts *)

Lemma str_eqb_refl (a : str) : str_eqb a a = true.
Proof.
  induction a as [|x a IH]; simpl; [reflexivity|].
  now rewrite N.eqb_refl, IH.
Qed.

Lemma str_eqb_eq (a b : str) : str_eqb a b = true <-> a = b.
Proof.
  split; [|intros ->; apply str_eqb_refl].
  revert b; induction a as [|x a IH]; intros [|y b]; simpl; try discriminate.
  - reflexivity.
  - rewrite andb_true_iff, N.eqb_eq.
    intros [-> H]. now rewrite (IH _ H).
Qed.

Lemma str_eqb_neq (a b : str) : str_eqb a b = false <-> a <> b.
Proof.
  rewrite <- str_eqb_eq. destruct (str_eqb a b); split; congruence.
Qed.

Lemma lookup_In {A} (k : str) (d : list (str * A)) (v : A) :
  lookup k d = Some v -> In (k, v) d.
Proof.
  induction d as [|[k' v'] d IH]; simpl; [discriminate|].
  destruct (str_eqb k' k) eqn:E.
  - apply str_eqb_eq in E. intros [= ->]. left. now subst.
  - intros H. right. now apply IH.
Qed.

(** A record with the keys of [user_keys] is the six bindings in that
    order. *)
Lemma has_user_keys_inv (u : user) :
  has_user_keys u ->
  exists i n s e c j,
    u = [(lit "uuid", i); (lit "name", n); (lit "surname", s);
         (lit "email", e); (lit "company", c); (lit "jobTitle", j)].
Proof.
  unfold has_user_keys, user_keys, record_keys. intros H.
  do 6 (destruct u as [|[? ?] u]; [discriminate H|]).
  destruct u; [|discriminate H].
  simpl in H. injection H as <- <- <- <- <- <-.
  now repeat eexists.
Qed.

Lemma user_getitem_uuid (u : user) :
  has_user_keys u -> exists i, user_getitem u (lit "uuid") = inr i /\ uuid_of u = Some i.
Proof.
  intros H. destruct (has_user_keys_inv u H) as (i & n & s & e & c & j & ->).
  exists i. split; reflexivity.
Qed.

Lemma user_getitem_email (u : user) :
  has_user_keys u -> exists e, user_getitem u (lit "email") = inr e /\ email_of u = Some e.
Proof.
  intros H. destruct (has_user_keys_inv u H) as (i & n & s & e & c & j & ->).
  exists e. split; reflexivity.
Qed.

(** ** Lists: removing one element by index *)

Lemma remove_at_middle {A} (pre post : list A) (x : A) :
  firstn (length pre) (pre ++ x :: post)
    ++ skipn (S (length pre)) (pre ++ x :: post) = pre ++ post.
Proof.
  induction pre as [|y pre IH]; [reflexivity|].
  change (y :: (firstn (length pre) (pre ++ x :: post)
                  ++ skipn (S (length pre)) (pre ++ x :: post))
          = y :: (pre ++ post)).
  now rewrite IH.
Qed.

Lemma nth_error_middle_eq {A} (pre post : list A) (x : A) :
  nth_error (pre ++ x :: post) (length pre) = Some x.
Proof.
  induction pre as [|y pre IH]; simpl; [reflexivity | exact IH].
Qed.

Lemma Forall_remove_at {A} (P : A -> Prop) (l : list A) (i : nat) :
  Forall P l -> Forall P (firstn i l ++ skipn (S i) l).
Proof.
  intros H. destruct (nth_error l i) as [x|] eqn:E.
  - destruct (nth_error_split l i E) as (pre & post & -> & <-).
    rewrite remove_at_middle.
    apply Forall_app in H as [Hpre Hpost].
    apply Forall_app. split; [exact Hpre | now inversion Hpost].
  - apply nth_error_None in E.
    rewrite firstn_all2 by exact E.
    rewrite skipn_all2 by lia.
    now rewrite app_nil_r.
Qed.

(** ** The loop over the required fields *)

Arguments lit : simpl never.
Arguments required_fields : simpl never.
Arguments stripped : simpl never.

(** The loop reads the body only. *)
Lemma check_required_frame (data : json) (fields : list str) (st : store) :
  snd (run (check_required data fields) st) = st.
Proof.
  induction fields as [|f rest IH]; [reflexivity|].
  cbn. destruct (contains f data) as [e|[|]]; cbn; try reflexivity.
  destruct (getitem data f) as [e|v]; cbn; try reflexivity.
  destruct (call_strip v) as [e|s]; cbn; try reflexivity.
  destruct s; cbn; [reflexivity | apply IH].
Qed.

Lemma check_required_filled d f rest st :
  field_filled d f ->
  run (check_required (JDict d) (f :: rest)) st
  = run (check_required (JDict d) rest) st.
Proof.
  intros (s & Hl & Hs). cbn. rewrite Hl. cbn.
  destruct (strip s); [contradiction | reflexivity].
Qed.

Lemma check_required_missing d f rest st :
  field_missing d f ->
  run (check_required (JDict d) (f :: rest)) st = (Return (missing_response f), st).
Proof.
  intros [Hl | (s & Hl & Hs)]; cbn; rewrite Hl; cbn; [reflexivity|].
  now rewrite Hs.
Qed.

Lemma check_required_nonstring d f rest st v :
  lookup f d = Some v -> (forall s, v <> JStr s) ->
  exists msg,
    run (check_required (JDict d) (f :: rest)) st = (Raise (AttributeError msg), st).
Proof.
  intros Hl Hv. cbn. rewrite Hl. cbn.
  destruct v; cbn; try (eexists; reflexivity).
  now destruct (Hv s).
Qed.

Lemma check_required_all_filled d fields st :
  Forall (field_filled d) fields ->
  run (check_required (JDict d) fields) st = (Next tt, st).
Proof.
  induction 1 as [|f rest Hf _ IH]; [reflexivity|].
  now rewrite check_required_filled.
Qed.

(** Conversely, only a dict with every field filled gets through. *)
Lemma check_required_next data fields st st' :
  fields <> [] ->
  run (check_required data fields) st = (Next tt, st') ->
  exists d, data = JDict d /\ Forall (field_filled d) fields.
Proof.
  intros Hne H.
  assert (Hall : forall fs st0 st1,
             run (check_required data fs) st0 = (Next tt, st1) ->
             forall f, In f fs ->
               exists v s, contains f data = inr true /\ getitem data f = inr v
                           /\ call_strip v = inr s /\ s <> []).
  { induction fs as [|g rest IH]; intros st0 st1 Hr f Hin; [destruct Hin|].
    cbn in Hr.
    destruct (contains g data) as [e|[|]] eqn:Ec; cbn in Hr; try discriminate.
    destruct (getitem data g) as [e|v] eqn:Eg; cbn in Hr; try discriminate.
    destruct (call_strip v) as [e|s] eqn:Es; cbn in Hr; try discriminate.
    destruct s as [|c s']; cbn in Hr; try discriminate.
    destruct Hin as [<- | Hin].
    - exists v, (c :: s'). repeat split; auto. discriminate.
    - eapply IH; eauto. }
  destruct fields as [|f0 rest]; [contradiction|].
  destruct (Hall _ _ _ H f0 (or_introl eq_refl)) as (v0 & s0 & _ & Hg0 & _).
  destruct data; try discriminate Hg0.
  exists d. split; [reflexivity|].
  apply Forall_forall. intros f Hin.
  destruct (Hall _ _ _ H f Hin) as (v & s & _ & Hg & Hs & Hn).
  cbn in Hg. destruct (lookup f d) as [w|] eqn:El; [|discriminate].
  injection Hg as ->.
  destruct v; try discriminate Hs.
  cbn in Hs. injection Hs as <-.
  eexists. split; [exact El | exact Hn].
Qed.

(** The loop only ever returns the missing-field answer. *)
Lemma check_required_return data fields st r st' :
  run (check_required data fields) st = (Return r, st') ->
  exists f, In f fields /\ r = missing_response f.
Proof.
  revert st st'. induction fields as [|f rest IH]; intros st st' H;
    [discriminate H|].
  cbn in H.
  destruct (contains f data) as [e|[|]]; cbn in H; try discriminate.
  - destruct (getitem data f) as [e|v]; cbn in H; try discriminate.
    destruct (call_strip v) as [e|s]; cbn in H; try discriminate.
    destruct s; cbn in H.
    + injection H as <- _. exists f. split; [now left | reflexivity].
    + destruct (IH _ _ H) as (g & Hin & ->). exists g. split; [now right | reflexivity].
  - injection H as <- _. exists f. split; [now left | reflexivity].
Qed.

Lemma check_required_passes_iff (data : json) (st : store) :
  run (check_required data required_fields) st = (Next tt, st)
  <-> passes_checks data.
Proof.
  split.
  - intros H. eapply check_required_next; [discriminate | exact H].
  - intros (d & -> & H). now apply check_required_all_filled.
Qed.

(** ** The duplicate check and the new record *)

Lemma any_email_spec d e users :
  lookup (lit "email") d = Some (JStr e) ->
  store_ok users ->
  exists b, any_email (JDict d) users = inr b
            /\ (b = true <-> exists u, In u users /\ email_of u = Some e).
Proof.
  intros Hd Hok. induction Hok as [|u users Hu _ IH].
  - exists false. split; [reflexivity|].
    split; [discriminate | intros (u & [] & _)].
  - destruct (user_getitem_email u Hu) as (e' & Hg & He').
    destruct IH as (b & Hb & Hiff).
    cbn. rewrite Hg. cbn. rewrite Hd. cbn.
    destruct (str_eqb e e') eqn:E.
    + apply str_eqb_eq in E. subst e'.
      exists true. split; [reflexivity|].
      split; [|reflexivity]. intros _. exists u. split; [now left | exact He'].
    + apply str_eqb_neq in E.
      exists b. split; [exact Hb|]. rewrite Hiff.
      split; intros (v & Hin & Hv).
      * exists v. split; [now right | exact Hv].
      * destruct Hin as [<- | Hin]; [congruence|].
        exists v. now split.
Qed.

Lemma stripped_filled d f s :
  lookup f d = Some (JStr s) -> stripped (JDict d) f = inr (strip s).
Proof. intros H. unfold stripped. cbn. now rewrite H. Qed.

Lemma new_user_of_keys urandom n s e c j :
  has_user_keys (new_user_of urandom n s e c j).
Proof. reflexivity. Qed.

(** What [create_user] does with a body that passes the checks. *)
Lemma create_user_passed d urandom st n s e c j :
  lookup (lit "name") d = Some (JStr n) ->
  lookup (lit "surname") d = Some (JStr s) ->
  lookup (lit "email") d = Some (JStr e) ->
  lookup (lit "company") d = Some (JStr c) ->
  lookup (lit "jobTitle") d = Some (JStr j) ->
  Forall (field_filled d) required_fields ->
  store_ok st ->
  exists dup,
    (dup = true <-> exists u, In u st /\ email_of u = Some e) /\
    create_user (inr (JDict d)) urandom st
    = if dup : bool then (conflict_response, st)
      else (mkResponse (json_of_user (new_user_of urandom n s e c j)) 201,
            st ++ [new_user_of urandom n s e c j]).
Proof.
  intros Hn Hs He Hc Hj Hall Hok.
  destruct (any_email_spec d e st He Hok) as (dup & Hany & Hiff).
  exists dup. split; [exact Hiff|].
  unfold create_user, try_except, create_user_body. cbn.
  rewrite (check_required_all_filled d required_fields st Hall). cbn.
  rewrite Hany. cbn.
  destruct dup; [reflexivity|].
  rewrite (stripped_filled d _ _ Hn), (stripped_filled d _ _ Hs),
    (stripped_filled d _ _ He), (stripped_filled d _ _ Hc),
    (stripped_filled d _ _ Hj).
  reflexivity.
Qed.

(** Every way [create_user] can end. *)
Lemma create_user_cases get_json urandom st :
  (exists msg, create_user get_json urandom st
               = (mkResponse (error_body msg) 400, st))
  \/ (exists msg, create_user get_json urandom st
                  = (internal_error_response msg, st))
  \/ (exists u, has_user_keys u
                /\ create_user get_json urandom st
                   = (mkResponse (json_of_user u) 201, st ++ [u])).
Proof.
  unfold create_user, try_except, create_user_body.
  destruct get_json as [e|data]; cbn; [right; left; eexists; reflexivity|].
  pose proof (check_required_frame data required_fields st) as Hfr.
  destruct (run (check_required data required_fields) st) as [[[]|r|e] st1] eqn:Ec;
    simpl in Hfr; subst st1.
  - destruct (any_email data st) as [e|[|]]; cbn;
      [right; left; eexists; reflexivity | left; eexists; reflexivity |].
    destruct (stripped data (lit "name")) as [e|n]; cbn;
      [right; left; eexists; reflexivity|].
    destruct (stripped data (lit "surname")) as [e|s]; cbn;
      [right; left; eexists; reflexivity|].
    destruct (stripped data (lit "email")) as [e|m]; cbn;
      [right; left; eexists; reflexivity|].
    destruct (stripped data (lit "company")) as [e|c]; cbn;
      [right; left; eexists; reflexivity|].
    destruct (stripped data (lit "jobTitle")) as [e|j]; cbn;
      [right; left; eexists; reflexivity|].
    right; right. eexists. split; [|reflexivity]. reflexivity.
  - destruct (check_required_return _ _ _ _ _ Ec) as (f & _ & ->).
    left. eexists; reflexivity.
  - right; left. eexists; reflexivity.
Qed.

(** ** Searching the store by identifier *)

Lemma uuid_of_getitem (u : user) (i : str) :
  uuid_of u = Some i -> user_getitem u (lit "uuid") = inr i.
Proof. unfold uuid_of, user_getitem. now intros ->. Qed.

Lemma getitem_other (u : user) (user_uuid : str) :
  has_user_keys u -> uuid_of u <> Some user_uuid ->
  exists i, user_getitem u (lit "uuid") = inr i /\ str_eqb i user_uuid = false.
Proof.
  intros Hu Hne. destruct (user_getitem_uuid u Hu) as (i & Hg & Hi).
  exists i. split; [exact Hg|]. apply str_eqb_neq. congruence.
Qed.

(** A store holding a record with the identifier splits at the first one. *)
Lemma first_match (user_uuid : str) (st : store) :
  (exists u, In u st /\ uuid_of u = Some user_uuid) ->
  exists pre u post,
    st = pre ++ u :: post /\ uuid_of u = Some user_uuid
    /\ (forall v, In v pre -> uuid_of v <> Some user_uuid).
Proof.
  induction st as [|w st IH]; intros (u & Hin & Hu); [destruct Hin|].
  assert (Hdec : uuid_of w = Some user_uuid \/ uuid_of w <> Some user_uuid).
  { destruct (uuid_of w) as [i|]; [|right; discriminate].
    destruct (str_eqb i user_uuid) eqn:E.
    - left. apply str_eqb_eq in E. now subst.
    - right. apply str_eqb_neq in E. congruence. }
  destruct Hdec as [Hw | Hw].
  - exists [], w, st. repeat split; [exact Hw | intros v []].
  - destruct Hin as [-> | Hin]; [contradiction|].
    destruct IH as (pre & x & post & -> & Hx & Hpre); [now exists u|].
    exists (w :: pre), x, post. repeat split; auto.
    intros v [<- | Hv]; auto.
Qed.

Lemma find_index_none user_uuid i users :
  store_ok users ->
  (forall u, In u users -> uuid_of u <> Some user_uuid) ->
  find_index user_uuid i users = inr None.
Proof.
  intros Hok. revert i. induction Hok as [|u users Hu _ IH]; intros i Hno;
    [reflexivity|].
  destruct (getitem_other u user_uuid Hu) as (x & Hg & Hx);
    [apply Hno; now left|].
  cbn. rewrite Hg. cbn. rewrite Hx.
  apply IH. intros v Hv. apply Hno. now right.
Qed.

Lemma find_index_first user_uuid i pre u post :
  store_ok pre ->
  (forall v, In v pre -> uuid_of v <> Some user_uuid) ->
  uuid_of u = Some user_uuid ->
  find_index user_uuid i (pre ++ u :: post) = inr (Some (i + length pre)).
Proof.
  intros Hok. revert i. induction Hok as [|w pre Hw _ IH]; intros i Hno Hu.
  - cbn. rewrite (uuid_of_getitem u _ Hu). cbn. rewrite str_eqb_refl.
    now rewrite Nat.add_0_r.
  - destruct (getitem_other w user_uuid Hw) as (x & Hg & Hx);
      [apply Hno; now left|].
    cbn. rewrite Hg. cbn. rewrite Hx.
    rewrite IH; [|intros v Hv; apply Hno; now right | exact Hu].
    now rewrite Nat.add_succ_r.
Qed.

(** The index found, if any, is inside the list searched. *)
Lemma find_index_bound user_uuid i users k :
  find_index user_uuid i users = inr (Some k) -> i <= k < i + length users.
Proof.
  revert i. induction users as [|u users IH]; intros i H; [discriminate H|].
  cbn in H. destruct (user_getitem u (lit "uuid")) as [e|x]; [discriminate H|].
  cbn in H. destruct (str_eqb x user_uuid).
  - injection H as <-. simpl. lia.
  - apply IH in H. simpl. lia.
Qed.

(** Every way [update_user] can end. *)
Lemma update_user_cases user_uuid get_json st :
  update_user user_uuid get_json st = (not_found_response, st)
  \/ (exists msg, update_user user_uuid get_json st
                  = (internal_error_response msg, st))
  \/ (exists u, In u st
                /\ update_user user_uuid get_json st
                   = (mkResponse (json_of_user u) 200, st)).
Proof.
  unfold update_user, try_except, update_user_body.
  destruct get_json as [e|data]; cbn; [right; left; eexists; reflexivity|].
  destruct (find_index user_uuid 0 st) as [e|[k|]] eqn:E; cbn;
    [right; left; eexists; reflexivity | | now left].
  destruct (nth_error st k) as [u|] eqn:En; cbn.
  - right; right. exists u. split; [eapply nth_error_In; eauto | reflexivity].
  - right; left. eexists; reflexivity.
Qed.

(** ** The loop of [delete_user] *)

Lemma delete_loop_cases user_uuid i users st :
  run (delete_loop user_uuid i users) st = (Next tt, st)
  \/ (exists e, run (delete_loop user_uuid i users) st = (Raise e, st))
  \/ (exists k u, nth_error st k = Some u
                  /\ run (delete_loop user_uuid i users) st
                     = (Return (jsonify (deleted_body u)),
                        firstn k st ++ skipn (S k) st)).
Proof.
  revert i. induction users as [|w users IH]; intros i; [now left|].
  cbn. destruct (user_getitem w (lit "uuid")) as [e|x]; cbn;
    [right; left; eexists; reflexivity|].
  destruct (str_eqb x user_uuid); [|apply IH].
  cbn. destruct (nth_error st i) as [u|] eqn:En; cbn.
  - right; right. exists i, u. split; [exact En | reflexivity].
  - right; left. eexists; reflexivity.
Qed.

Lemma delete_loop_none user_uuid i users st :
  store_ok users ->
  (forall u, In u users -> uuid_of u <> Some user_uuid) ->
  run (delete_loop user_uuid i users) st = (Next tt, st).
Proof.
  intros Hok. revert i. induction Hok as [|u users Hu _ IH]; intros i Hno;
    [reflexivity|].
  destruct (getitem_other u user_uuid Hu) as (x & Hg & Hx);
    [apply Hno; now left|].
  cbn. rewrite Hg. cbn. rewrite Hx.
  apply IH. intros v Hv. apply Hno. now right.
Qed.

Lemma delete_loop_first user_uuid i pre u post st del :
  store_ok pre ->
  (forall v, In v pre -> uuid_of v <> Some user_uuid) ->
  uuid_of u = Some user_uuid ->
  nth_error st (i + length pre) = Some del ->
  run (delete_loop user_uuid i (pre ++ u :: post)) st
  = (Return (jsonify (deleted_body del)),
     firstn (i + length pre) st ++ skipn (S (i + length pre)) st).
Proof.
  intros Hok. revert i. induction Hok as [|w pre Hw _ IH]; intros i Hno Hu Hn.
  - simpl length in *. rewrite Nat.add_0_r in *.
    cbn. rewrite (uuid_of_getitem u _ Hu). cbn. rewrite str_eqb_refl.
    cbn. rewrite Hn. reflexivity.
  - destruct (getitem_other w user_uuid Hw) as (x & Hg & Hx);
      [apply Hno; now left|].
    simpl length in *. rewrite Nat.add_succ_r in *.
    cbn. rewrite Hg. cbn. rewrite Hx.
    apply (IH (S i)); auto. intros v Hv. apply Hno. now right.
Qed.

(** Every way [delete_user] can end. *)
Lemma delete_user_cases user_uuid st :
  delete_user user_uuid st = (not_found_response, st)
  \/ (exists msg, delete_user user_uuid st = (internal_error_response msg, st))
  \/ (exists k u, nth_error st k = Some u
                  /\ delete_user user_uuid st
                     = (mkResponse (deleted_body u) 200,
                        firstn k st ++ skipn (S k) st)).
Proof.
  unfold delete_user, try_except, delete_user_body. cbn.
  destruct (delete_loop_cases user_uuid 0 st st)
    as [H | [(e & H) | (k & u & Hn & H)]]; rewrite H; cbn.
  - now left.
  - right; left. eexists; reflexivity.
  - right; right. exists k, u. split; [exact Hn | reflexivity].
Qed.

(** ** The found and the not-found answer *)

Lemma update_user_found user_uuid data pre u post :
  store_ok pre ->
  (forall v, In v pre -> uuid_of v <> Some user_uuid) ->
  uuid_of u = Some user_uuid ->
  update_user user_uuid (inr data) (pre ++ u :: post)
  = (mkResponse (json_of_user u) 200, pre ++ u :: post).
Proof.
  intros Hok Hpre Hu.
  unfold update_user, try_except, update_user_body. cbn.
  rewrite (find_index_first user_uuid 0 pre u post Hok Hpre Hu).
  cbn. now rewrite nth_error_middle_eq.
Qed.

Lemma update_user_absent user_uuid data st :
  store_ok st ->
  (forall u, In u st -> uuid_of u <> Some user_uuid) ->
  update_user user_uuid (inr data) st = (not_found_response, st).
Proof.
  intros Hok Hno.
  unfold update_user, try_except, update_user_body. cbn.
  now rewrite (find_index_none user_uuid 0 st Hok Hno).
Qed.

Lemma delete_user_found user_uuid pre u post :
  store_ok pre ->
  (forall v, In v pre -> uuid_of v <> Some user_uuid) ->
  uuid_of u = Some user_uuid ->
  delete_user user_uuid (pre ++ u :: post)
  = (mkResponse (deleted_body u) 200, pre ++ post).
Proof.
  intros Hok Hpre Hu.
  unfold delete_user, try_except, delete_user_body. cbn.
  rewrite (delete_loop_first user_uuid 0 pre u post (pre ++ u :: post) u
             Hok Hpre Hu (nth_error_middle_eq pre post u)).
  change (0 + length pre) with (length pre).
  now rewrite remove_at_middle.
Qed.

Lemma delete_user_absent user_uuid st :
  store_ok st ->
  (forall u, In u st -> uuid_of u <> Some user_uuid) ->
  delete_user user_uuid st = (not_found_response, st).
Proof.
  intros Hok Hno.
  unfold delete_user, try_except, delete_user_body. cbn.
  now rewrite (delete_loop_none user_uuid 0 st st Hok Hno).
Qed.

(** ** The generated identifier *)

Lemma hex_digits_length (n : nat) (i : N) : length (hex_digits n i) = n.
Proof. induction n as [|n IH]; simpl; [reflexivity | now rewrite IH]. Qed.

(** A UUID prints as 36 characters, whatever the draw. *)
Lemma str_uuid_length (int : N) : length (str_uuid int) = 36.
Proof.
  unfold str_uuid.
  repeat rewrite length_app.
  repeat rewrite length_firstn.
  repeat rewrite length_skipn.
  rewrite hex_digits_length. reflexivity.
Qed.

Lemma str_uuid_nonempty (int : N) : str_uuid int <> [].
Proof.
  intros H. pose proof (str_uuid_length int) as L.
  rewrite H in L. discriminate L.
Qed.

(** ** The shape of the store *)

Lemma handle_store_ok (req : request) (st : store) :
  store_ok st -> store_ok (snd (handle req st)).
Proof.
  intros Hok. destruct req as [|gj ur|id gj|id]; simpl.
  - exact Hok.
  - destruct (create_user_cases gj ur st)
      as [(m & ->) | [(m & ->) | (u & Hu & ->)]]; simpl; auto.
    apply Forall_app. split; [exact Hok | now constructor].
  - destruct (update_user_cases id gj st)
      as [-> | [(m & ->) | (u & _ & ->)]]; exact Hok.
  - destruct (delete_user_cases id st)
      as [-> | [(m & ->) | (k & u & _ & ->)]]; simpl; auto.
    now apply Forall_remove_at.
Qed.

(** Every record the service ever holds has the six keys. *)
Lemma reachable_store_ok (st : store) : reachable st -> store_ok st.
Proof.
  induction 1 as [|req st _ IH]; [constructor | now apply handle_store_ok].
Qed.

Lemma serve_reachable (reqs : list request) (st : store) :
  reachable st -> reachable (serve reqs st).
Proof.
  revert st. induction reqs as [|req reqs IH]; intros st H; [exact H|].
  apply IH. now constructor.
Qed.

Lemma user_keys_NoDup : NoDup user_keys.
Proof.
  unfold user_keys, record_keys, lit. cbn.
  repeat constructor; cbn; intuition discriminate.
Qed.

Lemma json_of_user_shape (u : user) :
  has_user_keys u -> record_shape (lit "uuid") (json_of_user u).
Proof.
  intros Hu. destruct (has_user_keys_inv u Hu) as (i & n & s & e & c & j & ->).
  eexists. split; [reflexivity|].
  split; [exact user_keys_NoDup|].
  split; [intros k; reflexivity|].
  intros k x Hin. cbn in Hin.
  repeat (destruct Hin as [[= <- <-] | Hin]; [eexists; reflexivity|]).
  destruct Hin.
Qed.

(** No record with the six keys of the program has a key "id". *)
Lemma json_of_user_no_id (u : user) :
  has_user_keys u -> ~ record_shape (lit "id") (json_of_user u).
Proof.
  intros Hu (d & Hd & _ & Hk & _).
  destruct (has_user_keys_inv u Hu) as (i & n & s & e & c & j & ->).
  injection Hd as <-.
  assert (Hin : In (lit "id") (record_keys (lit "id"))) by now left.
  apply Hk in Hin. cbv in Hin. intuition discriminate.
Qed.

(** ** C1: uniqueness of the stored email *)

(** C1 (the code breaks it).  The stored email is not unique in every
    reachable store: registering "a@x.com" and then " a@x.com" passes
    the duplicate check, which compares the untrimmed address, while
    both records are stored with the trimmed address "a@x.com". *)
Theorem stored_email_not_unique :
  let st := serve [CreateUser (inr (JDict ana)) 5;
                   CreateUser (inr (JDict ana_again)) 7] [] in
  reachable st
  /\ status (fst (create_user (inr (JDict ana)) 5 [])) = 201%Z
  /\ status (fst (create_user (inr (JDict ana_again)) 7 one_user)) = 201%Z
  /\ map email_of st = [Some (lit "a@x.com"); Some (lit "a@x.com")]
  /\ ~ emails_unique st.
Proof.
  split; [apply serve_reachable; constructor|].
  split; [vm_compute; reflexivity|].
  split; [vm_compute; reflexivity|].
  split; [vm_compute; reflexivity|].
  unfold emails_unique.
  replace (map email_of _)
    with [Some (lit "a@x.com"); Some (lit "a@x.com")] by (vm_compute; reflexivity).
  intros H. inversion H as [|x l Hnin _]. apply Hnin. now left.
Qed.

(** ** C2: the keys of a returned record *)

(** C2 as the specification words it fails: the record answered to the
    first registration has no key "id". *)
Lemma returned_id_key_counterexample :
  reachable [] /\ ~ returns_records_keyed (lit "id") [].
Proof.
  split; [constructor|].
  intros (Hc & _).
  specialize (Hc (inr (JDict ana)) 5%N eq_refl).
  revert Hc. apply (json_of_user_no_id (new_user_of 5 _ _ _ _ _)).
  reflexivity.
Qed.

(** C2 (amended).  In every reachable store, every record returned in a
    successful response is a JSON object with exactly the keys uuid,
    name, surname, email, company and jobTitle, each bound to a string:
    the identifier is under "uuid". *)
Theorem returned_records_shape (st : store) :
  reachable st -> returns_records_keyed (lit "uuid") st.
Proof.
  intros Hr. pose proof (reachable_store_ok st Hr) as Hok.
  repeat split.
  - intros gj ur Hs.
    destruct (create_user_cases gj ur st)
      as [(m & E) | [(m & E) | (u & Hu & E)]]; rewrite E in *; simpl in *;
      try discriminate.
    now apply json_of_user_shape.
  - eexists. split; [reflexivity|].
    apply Forall_map. unfold store_ok in Hok.
    eapply Forall_impl; [|exact Hok]. apply json_of_user_shape.
  - intros id gj Hs.
    destruct (update_user_cases id gj st)
      as [E | [(m & E) | (u & Hin & E)]]; rewrite E in *; simpl in *;
      try discriminate.
    apply json_of_user_shape.
    exact (proj1 (Forall_forall _ _) Hok u Hin).
  - intros id Hs.
    destruct (delete_user_cases id st)
      as [E | [(m & E) | (k & u & Hn & E)]]; rewrite E in *; simpl in *;
      try discriminate.
    eexists. split; [reflexivity|].
    apply json_of_user_shape.
    exact (proj1 (Forall_forall _ _) Hok u (nth_error_In _ _ Hn)).
Qed.

Lemma returned_records_shape_witness :
  reachable one_user /\ returns_records_keyed (lit "uuid") one_user.
Proof.
  assert (H : reachable one_user) by (apply serve_reachable; constructor).
  split; [exact H | exact (returned_records_shape one_user H)].
Defined.

(** ** C3: a successful registration *)

(** C3.  When the body is an object whose five required fields are
    strings that are non-empty after trimming, and no stored record has
    the incoming email, [create_user] answers 201 with the new record:
    the JSON object of the five inputs trimmed and a generated,
    non-empty identifier.  The record is appended: the store grows by
    one and the records already there keep their place. *)
Theorem create_user_created d urandom st n s e c j :
  reachable st ->
  lookup (lit "name") d = Some (JStr n) -> strip n <> [] ->
  lookup (lit "surname") d = Some (JStr s) -> strip s <> [] ->
  lookup (lit "email") d = Some (JStr e) -> strip e <> [] ->
  lookup (lit "company") d = Some (JStr c) -> strip c <> [] ->
  lookup (lit "jobTitle") d = Some (JStr j) -> strip j <> [] ->
  (forall u, In u st -> email_of u <> Some e) ->
  let uuid := str_uuid (uuid4 urandom) in
  let new_user :=
    [(lit "uuid", uuid); (lit "name", strip n);
     (lit "surname", strip s); (lit "email", strip e);
     (lit "company", strip c); (lit "jobTitle", strip j)] in
  create_user (inr (JDict d)) urandom st
  = (mkResponse
       (JDict [(lit "uuid", JStr uuid); (lit "name", JStr (strip n));
               (lit "surname", JStr (strip s)); (lit "email", JStr (strip e));
               (lit "company", JStr (strip c));
               (lit "jobTitle", JStr (strip j))])
       201,
     st ++ [new_user])
  /\ uuid <> []
  /\ length (st ++ [new_user]) = S (length st)
  /\ firstn (length st) (st ++ [new_user]) = st.
Proof.
  intros Hr Hn Hn' Hs Hs' He He' Hc Hc' Hj Hj' Hfresh uuid new_user.
  assert (Hall : Forall (field_filled d) required_fields).
  { unfold required_fields. repeat constructor; eexists; eauto. }
  destruct (create_user_passed d urandom st n s e c j Hn Hs He Hc Hj Hall
              (reachable_store_ok st Hr)) as (dup & Hiff & Hrun).
  destruct dup.
  - destruct (proj1 Hiff eq_refl) as (u & Hin & Hu).
    now destruct (Hfresh u Hin).
  - split; [exact Hrun|].
    split; [apply str_uuid_nonempty|].
    split; [rewrite length_app; simpl; lia|].
    rewrite firstn_app, Nat.sub_diag, firstn_all. simpl. apply app_nil_r.
Qed.

(** Bob registers after Ana, with surrounding blanks nowhere. *)
Lemma create_user_created_witness :
  create_user (inr (JDict bob)) 6 one_user
  = (mkResponse
       (JDict [(lit "uuid", JStr (lit "00000000-0000-4000-8000-000000000006"));
               (lit "name", JStr (lit "Bob")); (lit "surname", JStr (lit "Ray"));
               (lit "email", JStr (lit "b@x.com"));
               (lit "company", JStr (lit "Acme"));
               (lit "jobTitle", JStr (lit "Ops"))])
       201,
     [[(lit "uuid", lit "00000000-0000-4000-8000-000000000005");
       (lit "name", lit "Ana"); (lit "surname", lit "Lee");
       (lit "email", lit "a@x.com"); (lit "company", lit "Acme");
       (lit "jobTitle", lit "Eng")];
      [(lit "uuid", lit "00000000-0000-4000-8000-000000000006");
       (lit "name", lit "Bob"); (lit "surname", lit "Ray");
       (lit "email", lit "b@x.com"); (lit "company", lit "Acme");
       (lit "jobTitle", lit "Ops")]]).
Proof.
  refine (proj1 (create_user_created bob 6 one_user (lit "Bob") (lit "Ray")
                   (lit "b@x.com") (lit "Acme") (lit "Ops")
                   _ eq_refl _ eq_refl _ eq_refl _ eq_refl _
                   eq_refl _ _));
    try (vm_compute; discriminate).
  - apply serve_reachable. constructor.
  - intros u [<- | []]. vm_compute. discriminate.
Defined.

(** ** C4: a missing field *)

(** C4.  When the body is an object of strings and [f] is the first of
    name, surname, email, company, jobTitle that is absent or empty
    after trimming, [create_user] answers 400 with
    "Missing required field: f" and leaves the store as it was. *)
Theorem create_user_missing_field d urandom st pre f post :
  Forall (fun kv => exists s, snd kv = JStr s) d ->
  required_fields = pre ++ f :: post ->
  Forall (fun g => ~ field_missing d g) pre ->
  field_missing d f ->
  create_user (inr (JDict d)) urandom st
  = (mkResponse (error_body (lit "Missing required field: " ++ f)) 400, st).
Proof.
  intros Hstr Hsplit Hpre Hf.
  assert (Hfilled : Forall (field_filled d) pre).
  { eapply Forall_impl; [|exact Hpre]. intros g Hg.
    destruct (lookup g d) as [v|] eqn:El; [|destruct Hg; now left].
    destruct (proj1 (Forall_forall _ _) Hstr _ (lookup_In _ _ _ El)) as (x & Hx).
    simpl in Hx. subst v. exists x. split; [exact El|].
    intros Hx. apply Hg. right. now exists x. }
  unfold create_user, try_except, create_user_body. cbn.
  rewrite Hsplit.
  assert (Hloop : forall fs, Forall (field_filled d) fs ->
            run (check_required (JDict d) (fs ++ f :: post)) st
            = (Return (missing_response f), st)).
  { induction 1 as [|g fs Hg _ IH]; simpl app.
    - now apply check_required_missing.
    - now rewrite check_required_filled. }
  rewrite (Hloop pre Hfilled). reflexivity.
Qed.

Lemma create_user_missing_field_witness :
  create_user (inr (JDict no_company)) 5 one_user
  = (mkResponse (error_body (lit "Missing required field: company")) 400,
     one_user).
Proof.
  refine (create_user_missing_field no_company 5 one_user
            [lit "name"; lit "surname"; lit "email"] (lit "company")
            [lit "jobTitle"] _ eq_refl _ _).
  - repeat constructor; eexists; reflexivity.
  - repeat (apply Forall_cons; [|try apply Forall_nil]);
      (intros [H | (x & H & Hx)]; vm_compute in H;
       [discriminate H | injection H as <-; vm_compute in Hx; discriminate Hx]).
  - right. eexists. split; reflexivity.
Defined.

(** ** C5: the duplicate-email check *)

(** C5.  When the body passes the missing-field checks and some stored
    record has exactly the incoming, untrimmed email, [create_user]
    answers 400 with "Email already exists" and appends nothing; and it
    answers 201 exactly when no stored record has that email. *)
Theorem create_user_email_conflict data urandom st e :
  reachable st ->
  passes_checks data ->
  getitem data (lit "email") = inr (JStr e) ->
  ((exists u, In u st /\ email_of u = Some e) ->
   create_user (inr data) urandom st
   = (mkResponse (error_body (lit "Email already exists")) 400, st))
  /\ (status (fst (create_user (inr data) urandom st)) = 201%Z
      <-> ~ exists u, In u st /\ email_of u = Some e).
Proof.
  intros Hr (d & -> & Hall) Hg.
  assert (He : lookup (lit "email") d = Some (JStr e)).
  { cbn in Hg. destruct (lookup (lit "email") d); [congruence | discriminate]. }
  pose proof Hall as Hall'. unfold required_fields in Hall'.
  inversion Hall' as [|? ? (n & Hn & _) H1]; subst.
  inversion H1 as [|? ? (s & Hs & _) H2]; subst.
  inversion H2 as [|? ? _ H3]; subst.
  inversion H3 as [|? ? (c & Hc & _) H4]; subst.
  inversion H4 as [|? ? (j & Hj & _) _]; subst.
  destruct (create_user_passed d urandom st n s e c j Hn Hs He Hc Hj Hall
              (reachable_store_ok st Hr)) as (dup & Hiff & Hrun).
  rewrite Hrun. destruct dup; simpl.
  - split; [reflexivity|].
    split; [discriminate|]. intros Hno. destruct Hno. now apply Hiff.
  - split.
    + intros Hex. apply Hiff in Hex. discriminate Hex.
    + split; [|reflexivity]. intros _ Hex. apply Hiff in Hex. discriminate Hex.
Qed.

Lemma create_user_email_conflict_witness :
  create_user (inr (JDict ana)) 9 one_user
  = (mkResponse (error_body (lit "Email already exists")) 400, one_user).
Proof.
  refine (proj1 (create_user_email_conflict (JDict ana) 9 one_user
                   (lit "a@x.com") _ _ eq_refl) _).
  - apply serve_reachable. constructor.
  - exists ana. split; [reflexivity|].
    repeat (apply Forall_cons; [|try apply Forall_nil]);
      (eexists; split; [reflexivity | vm_compute; discriminate]).
  - eexists. split; [left; reflexivity | reflexivity].
Defined.

(** ** C6: looking a record up with PUT *)

(** C6.  With a body that parsed, [update_user] answers 404 with
    "User not found" when no stored record has the identifier, and
    otherwise 200 with the first stored record that has it: the JSON
    object of its six fields exactly as stored, whatever the body
    holds. *)
Theorem update_user_lookup user_uuid data st :
  reachable st ->
  ((forall u, In u st -> uuid_of u <> Some user_uuid) ->
   update_user user_uuid (inr data) st
   = (mkResponse (JDict [(lit "error", JStr (lit "User not found"))]) 404, st))
  /\ ((exists u, In u st /\ uuid_of u = Some user_uuid) ->
      exists pre post n s e c j,
        st = pre ++ [(lit "uuid", user_uuid); (lit "name", n);
                     (lit "surname", s); (lit "email", e);
                     (lit "company", c); (lit "jobTitle", j)] :: post
        /\ (forall v, In v pre -> uuid_of v <> Some user_uuid)
        /\ update_user user_uuid (inr data) st
           = (mkResponse
                (JDict [(lit "uuid", JStr user_uuid); (lit "name", JStr n);
                        (lit "surname", JStr s); (lit "email", JStr e);
                        (lit "company", JStr c); (lit "jobTitle", JStr j)])
                200,
              st)).
Proof.
  intros Hr. pose proof (reachable_store_ok st Hr) as Hok.
  split.
  - intros Hno. exact (update_user_absent user_uuid data st Hok Hno).
  - intros Hex.
    destruct (first_match user_uuid st Hex) as (pre & u & post & -> & Hu & Hpre).
    apply Forall_app in Hok as [Hokpre Hokpost].
    assert (Hku : has_user_keys u) by now inversion Hokpost.
    pose proof (update_user_found user_uuid data pre u post Hokpre Hpre Hu) as Hrun.
    destruct (has_user_keys_inv u Hku) as (i & n & s & e & c & j & ->).
    injection Hu as ->.
    exists pre, post, n, s, e, c, j.
    split; [reflexivity|]. split; [exact Hpre | exact Hrun].
Qed.

(** Bob and Carl carry the same identifier; a PUT on it with Ana's data
    as body answers Bob's record, the first of the two, as stored; a PUT
    on an unknown identifier answers 404. *)
Lemma update_user_lookup_witness :
  update_user (lit "00000000-0000-4000-8000-000000000006")
    (inr (JDict ana_again)) three_users
  = (mkResponse
       (JDict [(lit "uuid", JStr (lit "00000000-0000-4000-8000-000000000006"));
               (lit "name", JStr (lit "Bob")); (lit "surname", JStr (lit "Ray"));
               (lit "email", JStr (lit "b@x.com"));
               (lit "company", JStr (lit "Acme"));
               (lit "jobTitle", JStr (lit "Ops"))])
       200,
     three_users)
  /\ update_user (lit "no-such-id") (inr (JDict ana_again)) three_users
     = (mkResponse (JDict [(lit "error", JStr (lit "User not found"))]) 404,
        three_users).
Proof.
  assert (Hr : reachable three_users) by (apply serve_reachable; constructor).
  split.
  - destruct (proj2 (update_user_lookup
                       (lit "00000000-0000-4000-8000-000000000006")
                       (JDict ana_again) three_users Hr))
      as (pre & post & n & s & e & c & j & Hsplit & Hpre & Hrun).
    + eexists. split; [right; left; reflexivity | reflexivity].
    + rewrite Hrun. clear Hrun.
      destruct pre as [|a pre].
      { vm_compute in Hsplit. discriminate Hsplit. }
      destruct pre as [|b pre].
      { vm_compute in Hsplit. injection Hsplit as _ <- <- <- <- <- _.
        reflexivity. }
      exfalso. apply (Hpre b); [right; left; reflexivity|].
      destruct pre as [|x pre]; [|destruct pre; discriminate Hsplit];
        vm_compute in Hsplit; injection Hsplit as _ <- _; reflexivity.
  - refine (proj1 (update_user_lookup (lit "no-such-id") (JDict ana_again)
                     three_users Hr) _).
    intros u [<- | [<- | [<- | []]]]; vm_compute; discriminate.
Defined.

(** ** C7: PUT changes nothing *)

(** C7.  [update_user] never changes the store: whatever the store, the
    identifier and the body, and also when the body fails to parse, the
    store after the request is the store before it. *)
Theorem update_user_frame user_uuid get_json st :
  snd (update_user user_uuid get_json st) = st.
Proof.
  destruct (update_user_cases user_uuid get_json st)
    as [-> | [(m & ->) | (u & _ & ->)]]; reflexivity.
Qed.

(** ** C8: DELETE *)

(** C8.  [delete_user] removes the first stored record that has the
    identifier, all other records keeping their values and order, and
    answers 200 with the message and, under "user", the JSON object of
    the six fields of the removed record; when no stored record has the
    identifier it answers 404 with "User not found" and leaves the store
    as it was. *)
Theorem delete_user_removes_first user_uuid st :
  reachable st ->
  ((exists u, In u st /\ uuid_of u = Some user_uuid) ->
   exists pre post n s e c j,
     st = pre ++ [(lit "uuid", user_uuid); (lit "name", n);
                  (lit "surname", s); (lit "email", e);
                  (lit "company", c); (lit "jobTitle", j)] :: post
     /\ (forall v, In v pre -> uuid_of v <> Some user_uuid)
     /\ delete_user user_uuid st
        = (mkResponse
             (JDict [(lit "message", JStr (lit "User deleted successfully"));
                     (lit "user",
                      JDict [(lit "uuid", JStr user_uuid); (lit "name", JStr n);
                             (lit "surname", JStr s); (lit "email", JStr e);
                             (lit "company", JStr c);
                             (lit "jobTitle", JStr j)])])
             200,
           pre ++ post))
  /\ ((forall u, In u st -> uuid_of u <> Some user_uuid) ->
      delete_user user_uuid st
      = (mkResponse (JDict [(lit "error", JStr (lit "User not found"))]) 404,
         st)).
Proof.
  intros Hr. pose proof (reachable_store_ok st Hr) as Hok.
  split.
  - intros Hex.
    destruct (first_match user_uuid st Hex) as (pre & u & post & -> & Hu & Hpre).
    apply Forall_app in Hok as [Hokpre Hokpost].
    assert (Hku : has_user_keys u) by now inversion Hokpost.
    pose proof (delete_user_found user_uuid pre u post Hokpre Hpre Hu) as Hrun.
    destruct (has_user_keys_inv u Hku) as (i & n & s & e & c & j & ->).
    injection Hu as ->.
    exists pre, post, n, s, e, c, j.
    split; [reflexivity|]. split; [exact Hpre | exact Hrun].
  - intros Hno. exact (delete_user_absent user_uuid st Hok Hno).
Qed.

(** Bob and Carl carry the same identifier; a DELETE on it removes Bob,
    the first of the two, answers with his record, and leaves Ana and
    Carl in place. *)
Lemma delete_user_removes_first_witness :
  delete_user (lit "00000000-0000-4000-8000-000000000006") three_users
  = (mkResponse
       (JDict [(lit "message", JStr (lit "User deleted successfully"));
               (lit "user",
                JDict [(lit "uuid", JStr (lit "00000000-0000-4000-8000-000000000006"));
                       (lit "name", JStr (lit "Bob"));
                       (lit "surname", JStr (lit "Ray"));
                       (lit "email", JStr (lit "b@x.com"));
                       (lit "company", JStr (lit "Acme"));
                       (lit "jobTitle", JStr (lit "Ops"))])])
       200,
     [[(lit "uuid", lit "00000000-0000-4000-8000-000000000005");
       (lit "name", lit "Ana"); (lit "surname", lit "Lee");
       (lit "email", lit "a@x.com"); (lit "company", lit "Acme");
       (lit "jobTitle", lit "Eng")];
      [(lit "uuid", lit "00000000-0000-4000-8000-000000000006");
       (lit "name", lit "Carl"); (lit "surname", lit "Orr");
       (lit "email", lit "c@x.com"); (lit "company", lit "Bolt");
       (lit "jobTitle", lit "QA")]]).
Proof.
  assert (Hr : reachable three_users) by (apply serve_reachable; constructor).
  destruct (proj1 (delete_user_removes_first
                     (lit "00000000-0000-4000-8000-000000000006")
                     three_users Hr))
    as (pre & post & n & s & e & c & j & Hsplit & Hpre & Hrun).
  - eexists. split; [right; left; reflexivity | reflexivity].
  - rewrite Hrun. clear Hrun.
    destruct pre as [|a pre].
    { vm_compute in Hsplit. discriminate Hsplit. }
    destruct pre as [|b pre].
    { vm_compute in Hsplit. injection Hsplit as <- <- <- <- <- <- <-.
      reflexivity. }
    exfalso. apply (Hpre b); [right; left; reflexivity|].
    destruct pre as [|x pre]; [|destruct pre; discriminate Hsplit];
      vm_compute in Hsplit; injection Hsplit as _ <- _; reflexivity.
Defined.

(** ** C9: a failed request leaves the store alone *)

(** C9.  Whenever a handler answers 400, 404 or 500, the store after the
    request is the store before it. *)
Theorem error_leaves_store req st :
  is_error (status (fst (handle req st))) -> snd (handle req st) = st.
Proof.
  unfold is_error. destruct req as [|gj ur|id gj|id]; simpl.
  - reflexivity.
  - destruct (create_user_cases gj ur st)
      as [(m & ->) | [(m & ->) | (u & _ & ->)]]; simpl; auto.
    intros [H | [H | H]]; discriminate H.
  - destruct (update_user_cases id gj st)
      as [-> | [(m & ->) | (u & _ & ->)]]; reflexivity.
  - destruct (delete_user_cases id st)
      as [-> | [(m & ->) | (k & u & _ & ->)]]; simpl; auto.
    intros [H | [H | H]]; discriminate H.
Qed.

Lemma error_leaves_store_witness :
  is_error (status (fst (handle (DeleteUser (lit "no-such-id")) one_user)))
  /\ snd (handle (DeleteUser (lit "no-such-id")) one_user) = one_user.
Proof.
  assert (H : is_error (status (fst (handle (DeleteUser (lit "no-such-id")) one_user))))
    by (right; left; vm_compute; reflexivity).
  split; [exact H | exact (error_leaves_store _ _ H)].
Defined.

(** ** C10: a required field that is not a string *)

(** C10 as the specification words it fails: a name of one blank is a
    non-empty string, and with a null surname after it the answer is
    the 400 for the name, not a 500. *)
Lemma nonstring_field_counterexample :
  required_fields
  = [lit "name"] ++ lit "surname" :: [lit "email"; lit "company"; lit "jobTitle"]
  /\ Forall (field_nonempty blank_then_null) [lit "name"]
  /\ field_nonstring blank_then_null (lit "surname")
  /\ create_user (inr (JDict blank_then_null)) 0 []
     = (mkResponse (error_body (lit "Missing required field: name")) 400, [])
  /\ status (fst (create_user (inr (JDict blank_then_null)) 0 [])) <> 500%Z.
Proof.
  split; [reflexivity|].
  split.
  { constructor; [|constructor].
    eexists. split; [reflexivity | vm_compute; discriminate]. }
  split.
  { eexists. split; [reflexivity | discriminate]. }
  split; [reflexivity | vm_compute; discriminate].
Qed.

(** C10 (amended).  When a required field is present but not a string,
    and every field before it in the order name, surname, email,
    company, jobTitle is a string that is non-empty after trimming,
    [create_user] answers 500 with an {"error": message} body and leaves
    the store as it was. *)
Theorem create_user_nonstring_field d urandom st pre f post :
  required_fields = pre ++ f :: post ->
  Forall (field_filled d) pre ->
  field_nonstring d f ->
  exists msg,
    create_user (inr (JDict d)) urandom st
    = (mkResponse (error_body msg) 500, st).
Proof.
  intros Hsplit Hpre (v & Hl & Hv).
  unfold create_user, try_except, create_user_body. cbn.
  rewrite Hsplit.
  assert (Hloop : forall fs, Forall (field_filled d) fs ->
            exists msg,
              run (check_required (JDict d) (fs ++ f :: post)) st
              = (Raise (AttributeError msg), st)).
  { induction 1 as [|g fs Hg _ IH]; simpl app.
    - now apply (check_required_nonstring d f post st v).
    - now rewrite check_required_filled. }
  destruct (Hloop pre Hpre) as (msg & ->).
  exists msg. reflexivity.
Qed.

Lemma create_user_nonstring_field_witness :
  exists msg,
    create_user (inr (JDict name_then_number)) 5 one_user
    = (mkResponse (error_body msg) 500, one_user).
Proof.
  refine (create_user_nonstring_field name_then_number 5 one_user
            [lit "name"] (lit "surname")
            [lit "email"; lit "company"; lit "jobTitle"] eq_refl _ _).
  - constructor; [|constructor].
    eexists. split; [reflexivity | vm_compute; discriminate].
  - eexists. split; [reflexivity | discriminate].
Defined.

(** * Further properties of the handlers *)

(** ** [str.strip] *)

Lemma lstrip_no_lead (s : str) : no_lead (lstrip s).
Proof.
  induction s as [|c s IH]; simpl; [exact I|].
  destruct (is_space c) eqn:E; [exact IH | exact E].
Qed.

Lemma lstrip_fixed (s : str) : no_lead s -> lstrip s = s.
Proof. destruct s as [|c s]; simpl; [reflexivity | now intros ->]. Qed.

(** [lstrip] drops a prefix. *)
Lemma lstrip_suffix (s : str) : exists ws, s = ws ++ lstrip s.
Proof.
  induction s as [|c s (ws & IH)]; [now exists []|].
  simpl. destruct (is_space c).
  - exists (c :: ws). simpl. now rewrite <- IH.
  - now exists [].
Qed.

Lemma rstrip_no_lead (s : str) : no_lead s -> no_lead (rstrip s).
Proof.
  intros H. unfold rstrip.
  destruct (lstrip_suffix (rev s)) as (ws & E).
  apply rev_eq_app in E.
  destruct (rev (lstrip (rev s))) as [|c t]; [exact I|].
  rewrite E in H. exact H.
Qed.

Lemma strip_fixed (s : str) : no_lead s -> no_lead (rev s) -> trimmed s.
Proof.
  intros H1 H2. unfold trimmed, strip, rstrip.
  rewrite (lstrip_fixed s H1), (lstrip_fixed (rev s) H2).
  apply rev_involutive.
Qed.

Lemma strip_ends (s : str) : no_lead (strip s) /\ no_lead (rev (strip s)).
Proof.
  unfold strip. split.
  - apply rstrip_no_lead, lstrip_no_lead.
  - unfold rstrip. rewrite rev_involutive. apply lstrip_no_lead.
Qed.

(** What [strip] returns is trimmed. *)
Lemma strip_trimmed (s : str) : trimmed (strip s).
Proof. destruct (strip_ends s). now apply strip_fixed. Qed.

(** ** [create_user]: when it answers 201 *)

Lemma any_email_false d e users :
  lookup (lit "email") d = Some (JStr e) ->
  any_email (JDict d) users = inr false ->
  forall u, In u users -> email_of u <> Some e.
Proof.
  intros Hd. induction users as [|w users IH]; intros H u Hin; [destruct Hin|].
  cbn in H. unfold email_of in *. unfold user_getitem in H.
  destruct (lookup (lit "email") w) as [x|] eqn:Ew; cbn in H; [|discriminate H].
  rewrite Hd in H. cbn in H.
  destruct (str_eqb e x) eqn:E; [discriminate H|].
  apply str_eqb_neq in E.
  destruct Hin as [<- | Hin]; [rewrite Ew; congruence | now apply IH].
Qed.

(** A 201 means: an object body with the five fields filled, no stored
    record with the incoming email, and the record built from the body
    added at the end of the store. *)
Lemma create_user_201_inv get_json urandom st :
  status (fst (create_user get_json urandom st)) = 201%Z ->
  exists d n s e c j,
    get_json = inr (JDict d)
    /\ (lookup (lit "name") d = Some (JStr n) /\ strip n <> [])
    /\ (lookup (lit "surname") d = Some (JStr s) /\ strip s <> [])
    /\ (lookup (lit "email") d = Some (JStr e) /\ strip e <> [])
    /\ (lookup (lit "company") d = Some (JStr c) /\ strip c <> [])
    /\ (lookup (lit "jobTitle") d = Some (JStr j) /\ strip j <> [])
    /\ (forall u, In u st -> email_of u <> Some e)
    /\ create_user get_json urandom st
       = (mkResponse (json_of_user (new_user_of urandom n s e c j)) 201,
          st ++ [new_user_of urandom n s e c j]).
Proof.
  unfold create_user, try_except, create_user_body.
  destruct get_json as [x|data]; cbn; [discriminate|].
  pose proof (check_required_frame data required_fields st) as Hfr.
  destruct (run (check_required data required_fields) st) as [[[]|r|x] st1] eqn:Ec;
    simpl in Hfr; subst st1.
  - apply check_required_passes_iff in Ec. destruct Ec as (d & -> & Hall).
    pose proof Hall as Hall'. unfold required_fields in Hall'.
    inversion Hall' as [|? ? (n & Hn & Hn') H1]; subst.
    inversion H1 as [|? ? (s & Hs & Hs') H2]; subst.
    inversion H2 as [|? ? (e & He & He') H3]; subst.
    inversion H3 as [|? ? (c & Hc & Hc') H4]; subst.
    inversion H4 as [|? ? (j & Hj & Hj') _]; subst.
    destruct (any_email (JDict d) st) as [x|[|]] eqn:Ea; cbn; try discriminate.
    intros _. exists d, n, s, e, c, j.
    repeat (split; [now auto|]).
    split; [now apply (any_email_false d e st He Ea)|].
    rewrite (stripped_filled d _ _ Hn), (stripped_filled d _ _ Hs),
      (stripped_filled d _ _ He), (stripped_filled d _ _ Hc),
      (stripped_filled d _ _ Hj).
    reflexivity.
  - destruct (check_required_return _ _ _ _ _ Ec) as (f & _ & ->).
    cbn. discriminate.
  - cbn. discriminate.
Qed.

(** X1.  After a registration answered 201, the listing is the listing
    of before followed by the record just answered. *)
Theorem create_then_list get_json urandom st :
  status (fst (create_user get_json urandom st)) = 201%Z ->
  fst (get_users (snd (create_user get_json urandom st)))
  = listing (map json_of_user st
               ++ [body (fst (create_user get_json urandom st))]).
Proof.
  intros H.
  destruct (create_user_201_inv get_json urandom st H)
    as (d & n & s & e & c & j & _ & _ & _ & _ & _ & _ & _ & ->).
  unfold get_users, listing, jsonify. simpl. now rewrite map_app.
Qed.

Lemma create_then_list_witness :
  fst (get_users (snd (create_user (inr (JDict bob)) 6 one_user)))
  = listing (map json_of_user one_user
               ++ [body (fst (create_user (inr (JDict bob)) 6 one_user))]).
Proof. exact (create_then_list (inr (JDict bob)) 6 one_user eq_refl). Defined.

(** X2.  In a reachable store, [create_user] answers 201 exactly when
    the body is an object with the five required fields filled and no
    stored record has the incoming email. *)
Theorem create_user_201_iff get_json urandom st :
  reachable st ->
  (status (fst (create_user get_json urandom st)) = 201%Z
   <-> exists d e,
         get_json = inr (JDict d)
         /\ Forall (field_filled d) required_fields
         /\ lookup (lit "email") d = Some (JStr e)
         /\ forall u, In u st -> email_of u <> Some e).
Proof.
  intros Hr. split.
  - intros H.
    destruct (create_user_201_inv get_json urandom st H)
      as (d & n & s & e & c & j & -> & Hn & Hs & He & Hc & Hj & Hno & _).
    exists d, e. split; [reflexivity|].
    split; [|split; [exact (proj1 He) | exact Hno]].
    unfold required_fields.
    repeat (apply Forall_cons; [eexists; eassumption|]).
    apply Forall_nil.
  - intros (d & e & -> & Hall & He & Hno).
    pose proof Hall as Hall'. unfold required_fields in Hall'.
    inversion Hall' as [|? ? (n & Hn & _) H1]; subst.
    inversion H1 as [|? ? (s & Hs & _) H2]; subst.
    inversion H2 as [|? ? _ H3]; subst.
    inversion H3 as [|? ? (c & Hc & _) H4]; subst.
    inversion H4 as [|? ? (j & Hj & _) _]; subst.
    destruct (create_user_passed d urandom st n s e c j Hn Hs He Hc Hj Hall
                (reachable_store_ok st Hr)) as (dup & Hiff & ->).
    destruct dup; [|reflexivity].
    destruct (proj1 Hiff eq_refl) as (u & Hin & Hu). now destruct (Hno u Hin).
Qed.

Lemma create_user_201_iff_witness :
  status (fst (create_user (inr (JDict bob)) 6 one_user)) = 201%Z
  <-> exists d e,
        inr (JDict bob) = @inr exn json (JDict d)
        /\ Forall (field_filled d) required_fields
        /\ lookup (lit "email") d = Some (JStr e)
        /\ forall u, In u one_user -> email_of u <> Some e.
Proof.
  apply (create_user_201_iff (inr (JDict bob)) 6 one_user).
  apply serve_reachable. constructor.
Defined.

Lemma existsb_eq_str (field : str) (l : list json) :
  existsb (fun v => eq_str v field) l = true <-> In (JStr field) l.
Proof.
  rewrite existsb_exists. split.
  - intros (v & Hin & Hv). destruct v; try discriminate Hv.
    simpl in Hv. apply str_eqb_eq in Hv. now subst.
  - intros Hin. exists (JStr field). split; [exact Hin | apply str_eqb_refl].
Qed.

(** X3.  A body that is not an object never registers anybody.  [None],
    a [bool] or a number answers 500; an array or a string answers 500
    when it holds "name" (as an element, as a substring) and otherwise
    400 for the missing name.  The store is left as it was. *)
Theorem create_user_non_object urandom st :
  (forall data, scalar data ->
     exists msg, create_user (inr data) urandom st
                 = (internal_error_response msg, st))
  /\ (forall l, In (JStr (lit "name")) l ->
        exists msg, create_user (inr (JList l)) urandom st
                    = (internal_error_response msg, st))
  /\ (forall l, ~ In (JStr (lit "name")) l ->
        create_user (inr (JList l)) urandom st
        = (missing_response (lit "name"), st))
  /\ (forall s, str_contains s (lit "name") = true ->
        exists msg, create_user (inr (JStr s)) urandom st
                    = (internal_error_response msg, st))
  /\ (forall s, str_contains s (lit "name") = false ->
        create_user (inr (JStr s)) urandom st
        = (missing_response (lit "name"), st)).
Proof.
  unfold create_user, try_except, create_user_body, required_fields.
  repeat split.
  - intros data Hs. destruct data; try destruct Hs; cbn; eexists; reflexivity.
  - intros l Hin. apply existsb_eq_str in Hin. cbn. rewrite Hin. cbn.
    eexists; reflexivity.
  - intros l Hin. cbn.
    destruct (existsb (fun v => eq_str v (lit "name")) l) eqn:E;
      [now apply existsb_eq_str in E | reflexivity].
  - intros s Hs. cbn. rewrite Hs. cbn. eexists; reflexivity.
  - intros s Hs. cbn. rewrite Hs. reflexivity.
Qed.

Lemma create_user_non_object_witness :
  (exists msg, create_user (inr array_with_name) 5 one_user
               = (internal_error_response msg, one_user))
  /\ create_user (inr (JList [])) 5 one_user
     = (missing_response (lit "name"), one_user)
  /\ (exists msg, create_user (inr text_with_name) 5 one_user
                  = (internal_error_response msg, one_user)).
Proof.
  destruct (create_user_non_object 5 one_user) as (_ & Hl & Hnl & Hs & _).
  split; [apply Hl; right; left; reflexivity|].
  split; [apply Hnl; intros [] | apply Hs; reflexivity].
Defined.

(** X4.  The answers each handler can give: [get_users] only 200;
    [create_user] 201, 400 or 500; [update_user] and [delete_user] 200,
    404 or 500; and every 400, 404 and 500 carries an {"error": message}
    body. *)
Theorem answers_classified req st :
  let r := fst (handle req st) in
  match req with
  | GetUsers => status r = 200%Z
  | CreateUser _ _ =>
      status r = 201%Z
      \/ ((status r = 400%Z \/ status r = 500%Z)
          /\ exists msg, body r = error_body msg)
  | UpdateUser _ _ | DeleteUser _ =>
      status r = 200%Z
      \/ ((status r = 404%Z \/ status r = 500%Z)
          /\ exists msg, body r = error_body msg)
  end.
Proof.
  destruct req as [|gj ur|id gj|id]; simpl.
  - reflexivity.
  - destruct (create_user_cases gj ur st)
      as [(m & ->) | [(m & ->) | (u & _ & ->)]]; simpl;
      [right | right | left]; try reflexivity;
      (split; [auto | eexists; reflexivity]).
  - destruct (update_user_cases id gj st)
      as [-> | [(m & ->) | (u & _ & ->)]]; simpl;
      [right | right | left]; try reflexivity;
      (split; [auto | eexists; reflexivity]).
  - destruct (delete_user_cases id st)
      as [-> | [(m & ->) | (k & u & _ & ->)]]; simpl;
      [right | right | left]; try reflexivity;
      (split; [auto | eexists; reflexivity]).
Qed.

(** ** Looking up and deleting in a store of well-formed records *)

Lemma uuid_match_dec (user_uuid : str) (st : store) :
  (exists u, In u st /\ uuid_of u = Some user_uuid)
  \/ (forall u, In u st -> uuid_of u <> Some user_uuid).
Proof.
  induction st as [|w st [(u & Hin & Hu) | IH]].
  - right. intros u [].
  - left. exists u. split; [now right | exact Hu].
  - destruct (uuid_of w) as [i|] eqn:Ew.
    + destruct (str_eqb i user_uuid) eqn:E.
      * apply str_eqb_eq in E. subst i.
        left. exists w. split; [now left | exact Ew].
      * apply str_eqb_neq in E.
        right. intros u [<- | Hin]; [congruence | now apply IH].
    + right. intros u [<- | Hin]; [congruence | now apply IH].
Qed.

(** X5.  In a reachable store the searches never raise: [delete_user]
    answers 200 or 404, never 500, and so does [update_user] once the
    body has parsed. *)
Theorem search_never_fails st :
  reachable st ->
  (forall user_uuid,
      status (fst (delete_user user_uuid st)) = 200%Z
      \/ status (fst (delete_user user_uuid st)) = 404%Z)
  /\ (forall user_uuid data,
         status (fst (update_user user_uuid (inr data) st)) = 200%Z
         \/ status (fst (update_user user_uuid (inr data) st)) = 404%Z).
Proof.
  intros Hr. pose proof (reachable_store_ok st Hr) as Hok.
  split.
  - intros id. destruct (uuid_match_dec id st) as [Hex | Hno].
    + destruct (first_match id st Hex) as (pre & u & post & -> & Hu & Hpre).
      apply Forall_app in Hok as [Hokpre _].
      left. now rewrite (delete_user_found id pre u post Hokpre Hpre Hu).
    + right. now rewrite (delete_user_absent id st Hok Hno).
  - intros id data. destruct (uuid_match_dec id st) as [Hex | Hno].
    + destruct (first_match id st Hex) as (pre & u & post & -> & Hu & Hpre).
      apply Forall_app in Hok as [Hokpre _].
      left. now rewrite (update_user_found id data pre u post Hokpre Hpre Hu).
    + right. now rewrite (update_user_absent id data st Hok Hno).
Qed.

Lemma search_never_fails_witness :
  status (fst (delete_user (lit "no-such-id") one_user)) = 200%Z
  \/ status (fst (delete_user (lit "no-such-id") one_user)) = 404%Z.
Proof.
  refine (proj1 (search_never_fails one_user _) (lit "no-such-id")).
  apply serve_reachable. constructor.
Defined.

(** ** What the store holds *)

Lemma new_user_of_clean urandom n s e c j :
  strip n <> [] -> strip s <> [] -> strip e <> [] -> strip c <> [] ->
  strip j <> [] ->
  record_clean (new_user_of urandom n s e c j).
Proof.
  intros Hn Hs He Hc Hj. split.
  - eexists. split; [reflexivity | apply str_uuid_length].
  - unfold required_fields.
    repeat (apply Forall_cons;
            [eexists; split; [reflexivity | split; [assumption | apply strip_trimmed]]|]).
    apply Forall_nil.
Qed.

Lemma handle_clean (req : request) (st : store) :
  Forall record_clean st -> Forall record_clean (snd (handle req st)).
Proof.
  intros Hcl. destruct req as [|gj ur|id gj|id]; simpl.
  - exact Hcl.
  - destruct (create_user_cases gj ur st)
      as [(m & E) | [(m & E) | (u & _ & E)]]; try (rewrite E; exact Hcl).
    assert (H201 : status (fst (create_user gj ur st)) = 201%Z) by now rewrite E.
    destruct (create_user_201_inv gj ur st H201)
      as (d & n & s & e & c & j & _ & Hn & Hs & He & Hc & Hj & _ & ->).
    apply Forall_app. split; [exact Hcl|].
    constructor; [|constructor].
    apply new_user_of_clean; tauto.
  - destruct (update_user_cases id gj st)
      as [-> | [(m & ->) | (u & _ & ->)]]; exact Hcl.
  - destruct (delete_user_cases id st)
      as [-> | [(m & ->) | (k & u & _ & ->)]]; simpl; auto.
    now apply Forall_remove_at.
Qed.

(** X6.  Every record of a reachable store has an identifier of 36
    characters, and its name, surname, email, company and jobTitle are
    non-empty strings without whitespace at either end. *)
Theorem stored_records_clean st : reachable st -> Forall record_clean st.
Proof.
  induction 1 as [|req st _ IH]; [constructor | now apply handle_clean].
Qed.

Lemma stored_records_clean_witness : Forall record_clean one_user.
Proof.
  apply (stored_records_clean one_user).
  apply serve_reachable. constructor.
Defined.

(** ** The printed identifier *)

Lemma small_cases (n : N) :
  (n = 0 \/ n = 1 \/ n = 2 \/ n = 3 \/ 4 <= n)%N.
Proof. lia. Qed.

(** Bits 76 to 79 of a version-4 UUID spell 4. *)
Lemma uuid4_version (urandom : N) :
  N.land (N.shiftr (uuid4 urandom) 76) 15 = 4%N.
Proof.
  apply N.bits_inj. intros n. unfold uuid4.
  rewrite N.land_spec, N.shiftr_spec', N.lor_spec, N.ldiff_spec.
  change 15%N with (N.ones 4).
  destruct (small_cases n) as [-> | [-> | [-> | [-> | Hn]]]].
  1-4: rewrite N.shiftl_spec_high' by lia;
       rewrite (N.shiftl_spec_high' 4) by lia;
       simpl N.add; simpl N.sub; cbn [N.testbit];
       rewrite ?andb_false_r; reflexivity.
  rewrite N.ones_spec_high by exact Hn.
  rewrite andb_false_r.
  change 4%N with (2 ^ 2)%N. rewrite N.pow2_bits_eqb.
  symmetry. apply N.eqb_neq. lia.
Qed.

(** Bits 62 and 63 are the RFC 4122 variant, 10. *)
Lemma uuid4_variant (urandom : N) :
  N.land (N.shiftr (uuid4 urandom) 60) 12 = 8%N.
Proof.
  apply N.bits_inj. intros n. unfold uuid4.
  rewrite N.land_spec, N.shiftr_spec', N.lor_spec, N.ldiff_spec,
    N.lor_spec, N.ldiff_spec.
  destruct (small_cases n) as [-> | [-> | [-> | [-> | Hn]]]].
  1-4: rewrite (N.shiftl_spec_low 4) by lia;
       rewrite (N.shiftl_spec_low 0xf000) by lia;
       rewrite !N.shiftl_spec_high' by lia;
       simpl N.add; simpl N.sub; cbn [N.testbit];
       rewrite ?andb_false_r, ?orb_false_r, ?orb_true_r, ?andb_true_r;
       reflexivity.
  assert (H12 : N.testbit 12 n = false).
  { change 12%N with (N.lor (2 ^ 3) (2 ^ 2))%N.
    rewrite N.lor_spec, !N.pow2_bits_eqb.
    apply orb_false_iff. split; apply N.eqb_neq; lia. }
  rewrite H12, andb_false_r.
  change 8%N with (2 ^ 3)%N. rewrite N.pow2_bits_eqb.
  symmetry. apply N.eqb_neq. lia.
Qed.

Lemma nibble_cases (x : N) :
  let v := N.land x 15 in
  (v = 0 \/ v = 1 \/ v = 2 \/ v = 3 \/ v = 4 \/ v = 5 \/ v = 6 \/ v = 7 \/ v = 8
   \/ v = 9 \/ v = 10 \/ v = 11 \/ v = 12 \/ v = 13 \/ v = 14 \/ v = 15)%N.
Proof.
  intros v. assert (H : (v < 16)%N).
  { unfold v. change 15%N with (N.ones 4). rewrite N.land_ones.
    apply N.mod_lt. discriminate. }
  lia.
Qed.

Lemma hex_digit_alphabet (x : N) : In (hex_digit (N.land x 15)) uuid_alphabet.
Proof.
  pose proof (nibble_cases x) as H. cbv zeta in H.
  repeat (destruct H as [-> | H]; [vm_compute; tauto|]).
  rewrite H. vm_compute. tauto.
Qed.

Lemma hex_digits_alphabet (n : nat) (i : N) :
  Forall (fun c => In c uuid_alphabet) (hex_digits n i).
Proof.
  induction n as [|n IH]; simpl; constructor;
    [apply hex_digit_alphabet | exact IH].
Qed.

Lemma Forall_firstn_skipn {A} (P : A -> Prop) (n : nat) (l : list A) :
  Forall P l -> Forall P (firstn n l) /\ Forall P (skipn n l).
Proof.
  intros H. rewrite <- (firstn_skipn n l) in H. now apply Forall_app in H.
Qed.

(** X7.  The identifier [create_user] generates is, for every random
    draw, 36 characters of "0123456789abcdef-", with a dash at positions
    8, 13, 18 and 23, the version digit 4 at position 14, and 8, 9, a or
    b at position 19. *)
Theorem identifier_format (urandom : N) :
  let s := str_uuid (uuid4 urandom) in
  length s = 36
  /\ Forall (fun c => In c uuid_alphabet) s
  /\ char_at s 8 = lit "-" /\ char_at s 13 = lit "-"
  /\ char_at s 18 = lit "-" /\ char_at s 23 = lit "-"
  /\ char_at s 14 = lit "4"
  /\ In (char_at s 19) [lit "8"; lit "9"; lit "a"; lit "b"].
Proof.
  intros s. split; [apply str_uuid_length|].
  split.
  { unfold s, str_uuid.
    pose proof (hex_digits_alphabet 32 (uuid4 urandom)) as H.
    assert (Hd : Forall (fun c => In c uuid_alphabet) (lit "-"))
      by (constructor; [vm_compute; tauto | constructor]).
    repeat (apply Forall_app; split); try exact Hd;
      repeat (first [exact H | apply Forall_firstn_skipn]). }
  do 4 (split; [reflexivity|]).
  split.
  - change (char_at s 14)
      with [hex_digit (N.land (N.shiftr (uuid4 urandom) 76) 15)].
    now rewrite uuid4_version.
  - change (char_at s 19)
      with [hex_digit (N.land (N.shiftr (uuid4 urandom) 60) 15)].
    pose proof (uuid4_variant urandom) as Hv.
    assert (Hv' : N.land (N.land (N.shiftr (uuid4 urandom) 60) 15) 12 = 8%N)
      by (rewrite <- N.land_assoc; exact Hv).
    pose proof (nibble_cases (N.shiftr (uuid4 urandom) 60)) as H. cbv zeta in H.
    revert Hv'.
    repeat (destruct H as [-> | H];
            [first [discriminate | intros _; vm_compute; tauto]|]).
    rewrite H. discriminate.
Qed.

(** ** Registering twice, and the uniqueness that does hold *)

Lemma new_user_email urandom n s e c j :
  email_of (new_user_of urandom n s e c j) = Some (strip e).
Proof. reflexivity. Qed.

Lemma new_user_uuid urandom n s e c j :
  uuid_of (new_user_of urandom n s e c j) = Some (str_uuid (uuid4 urandom)).
Proof. reflexivity. Qed.

(** X8.  A body whose email has no whitespace around it registers at
    most once: after a 201, the same body again answers 400
    "Email already exists", whatever the random draw, and adds nothing. *)
Theorem create_user_twice d e urandom urandom' st :
  reachable st ->
  lookup (lit "email") d = Some (JStr e) ->
  trimmed e ->
  status (fst (create_user (inr (JDict d)) urandom st)) = 201%Z ->
  let st' := snd (create_user (inr (JDict d)) urandom st) in
  create_user (inr (JDict d)) urandom' st'
  = (mkResponse (error_body (lit "Email already exists")) 400, st').
Proof.
  intros Hr He Htr H st'.
  assert (Hok : store_ok st').
  { apply (handle_store_ok (CreateUser (inr (JDict d)) urandom) st).
    now apply reachable_store_ok. }
  destruct (create_user_201_inv _ urandom st H)
    as (d0 & n & s & e0 & c & j & [= <-] & Hn & Hs & He0 & Hc & Hj & _ & E).
  assert (e0 = e) by (destruct He0; congruence). subst e0.
  assert (Hall : Forall (field_filled d) required_fields).
  { unfold required_fields.
    repeat (apply Forall_cons; [eexists; eassumption|]). apply Forall_nil. }
  destruct (create_user_passed d urandom' st' n s e c j (proj1 Hn) (proj1 Hs)
              He (proj1 Hc) (proj1 Hj) Hall Hok) as (dup & Hiff & ->).
  destruct dup; [reflexivity|].
  assert (Hdup : false = true); [|discriminate Hdup].
  apply Hiff. exists (new_user_of urandom n s e c j). split.
  - unfold st'. rewrite E. simpl. apply in_or_app. right. now left.
  - rewrite new_user_email. now rewrite Htr.
Qed.

Lemma create_user_twice_witness :
  create_user (inr (JDict bob)) 8 (snd (create_user (inr (JDict bob)) 6 one_user))
  = (mkResponse (error_body (lit "Email already exists")) 400,
     snd (create_user (inr (JDict bob)) 6 one_user)).
Proof.
  refine (create_user_twice bob (lit "b@x.com") 6 8 one_user _ eq_refl eq_refl
            eq_refl).
  apply serve_reachable. constructor.
Defined.

Lemma NoDup_snoc {A} (l : list A) (x : A) :
  NoDup l -> ~ In x l -> NoDup (l ++ [x]).
Proof.
  intros Hl Hx. apply NoDup_rev in Hl.
  rewrite <- (rev_involutive (l ++ [x])). apply NoDup_rev.
  rewrite rev_app_distr. simpl. constructor; [|exact Hl].
  now rewrite <- in_rev.
Qed.

Lemma handle_emails_unique (req : request) (st : store) :
  email_trimmed req -> emails_unique st -> emails_unique (snd (handle req st)).
Proof.
  unfold emails_unique. intros Htr Hu.
  destruct req as [|gj ur|id gj|id]; simpl.
  - exact Hu.
  - destruct (create_user_cases gj ur st)
      as [(m & E) | [(m & E) | (u & _ & E)]]; try (rewrite E; exact Hu).
    assert (H201 : status (fst (create_user gj ur st)) = 201%Z) by now rewrite E.
    destruct (create_user_201_inv gj ur st H201)
      as (d & n & s & e & c & j & -> & _ & _ & He & _ & _ & Hno & ->).
    simpl. rewrite map_app. simpl. rewrite new_user_email.
    assert (Hte : trimmed e).
    { apply Htr. cbn. now rewrite (proj1 He). }
    rewrite Hte. apply NoDup_snoc; [exact Hu|].
    intros Hin. apply in_map_iff in Hin as (w & Hwe & Hin).
    exact (Hno w Hin Hwe).
  - destruct (update_user_cases id gj st)
      as [-> | [(m & ->) | (u & _ & ->)]]; exact Hu.
  - destruct (delete_user_cases id st)
      as [-> | [(m & ->) | (k & u & Hn & ->)]]; cbn [snd]; auto.
    destruct (nth_error_split st k Hn) as (pre & post & -> & <-).
    rewrite remove_at_middle.
    rewrite map_app in *. simpl in Hu.
    now apply NoDup_remove_1 in Hu.
Qed.

(** X9.  As long as no registration carries an email with whitespace
    around it, no two stored records have the same email. *)
Theorem emails_unique_when_trimmed (reqs : list request) :
  Forall email_trimmed reqs -> emails_unique (serve reqs []).
Proof.
  assert (H : forall st, emails_unique st -> Forall email_trimmed reqs ->
                         emails_unique (serve reqs st)).
  { induction reqs as [|req reqs IH]; intros st Hu Hall; [exact Hu|].
    inversion Hall as [|? ? Hreq Hrest]; subst.
    simpl. apply IH; [|exact Hrest]. now apply handle_emails_unique. }
  apply H. constructor.
Qed.

Lemma emails_unique_when_trimmed_witness :
  emails_unique
    (serve [CreateUser (inr (JDict ana)) 5; CreateUser (inr (JDict bob)) 6;
            CreateUser (inr (JDict ana)) 7; DeleteUser (lit "no-such-id")] []).
Proof.
  apply emails_unique_when_trimmed.
  repeat (apply Forall_cons; [|try apply Forall_nil]);
    try exact I;
    (intros e H; vm_compute in H; injection H as <-; reflexivity).
Defined.

(** ** How the operations compose *)

(** X10.  Registering and then deleting by the identifier just answered
    gives the record back and restores the store, provided no record
    already there carries the same identifier. *)
Theorem create_then_delete get_json urandom st :
  reachable st ->
  status (fst (create_user get_json urandom st)) = 201%Z ->
  (forall u, In u st -> uuid_of u <> Some (str_uuid (uuid4 urandom))) ->
  delete_user (str_uuid (uuid4 urandom)) (snd (create_user get_json urandom st))
  = (mkResponse
       (JDict [(lit "message", JStr (lit "User deleted successfully"));
               (lit "user", body (fst (create_user get_json urandom st)))])
       200,
     st).
Proof.
  intros Hr H Hfresh.
  destruct (create_user_201_inv get_json urandom st H)
    as (d & n & s & e & c & j & _ & _ & _ & _ & _ & _ & _ & ->).
  cbn [fst snd body].
  change (st ++ [new_user_of urandom n s e c j])
    with (st ++ new_user_of urandom n s e c j :: []).
  rewrite (delete_user_found _ st _ [] (reachable_store_ok st Hr) Hfresh
             (new_user_uuid urandom n s e c j)).
  now rewrite app_nil_r.
Qed.

Lemma create_then_delete_witness :
  delete_user (str_uuid (uuid4 6)) (snd (create_user (inr (JDict bob)) 6 one_user))
  = (mkResponse
       (JDict [(lit "message", JStr (lit "User deleted successfully"));
               (lit "user", body (fst (create_user (inr (JDict bob)) 6 one_user)))])
       200,
     one_user).
Proof.
  refine (create_then_delete (inr (JDict bob)) 6 one_user _ eq_refl _).
  - apply serve_reachable. constructor.
  - intros u [<- | []]. vm_compute. discriminate.
Defined.

(** X11.  After a registration answered 201, a PUT on the identifier
    just answered returns the new record, whatever its body holds,
    provided no record already there carries the same identifier. *)
Theorem create_then_update get_json urandom data st :
  reachable st ->
  status (fst (create_user get_json urandom st)) = 201%Z ->
  (forall u, In u st -> uuid_of u <> Some (str_uuid (uuid4 urandom))) ->
  let st' := snd (create_user get_json urandom st) in
  update_user (str_uuid (uuid4 urandom)) (inr data) st'
  = (mkResponse (body (fst (create_user get_json urandom st))) 200, st').
Proof.
  intros Hr H Hfresh st'. unfold st'.
  destruct (create_user_201_inv get_json urandom st H)
    as (d & n & s & e & c & j & _ & _ & _ & _ & _ & _ & _ & ->).
  cbn [fst snd body].
  change (st ++ [new_user_of urandom n s e c j])
    with (st ++ new_user_of urandom n s e c j :: []).
  apply (update_user_found _ data st _ [] (reachable_store_ok st Hr) Hfresh
           (new_user_uuid urandom n s e c j)).
Qed.

Lemma create_then_update_witness :
  update_user (str_uuid (uuid4 6)) (inr (JDict ana))
    (snd (create_user (inr (JDict bob)) 6 one_user))
  = (mkResponse (body (fst (create_user (inr (JDict bob)) 6 one_user))) 200,
     snd (create_user (inr (JDict bob)) 6 one_user)).
Proof.
  refine (create_then_update (inr (JDict bob)) 6 (JDict ana) one_user _ eq_refl _).
  - apply serve_reachable. constructor.
  - intros u [<- | []]. vm_compute. discriminate.
Defined.

(** X12.  Once the only record with an identifier is deleted, the
    identifier is unknown: a further DELETE and any PUT on it answer 404
    and leave the store as it is. *)
Theorem delete_then_gone user_uuid pre u post :
  reachable (pre ++ u :: post) ->
  uuid_of u = Some user_uuid ->
  (forall v, In v (pre ++ post) -> uuid_of v <> Some user_uuid) ->
  let st' := snd (delete_user user_uuid (pre ++ u :: post)) in
  st' = pre ++ post
  /\ delete_user user_uuid st'
     = (mkResponse (error_body (lit "User not found")) 404, st')
  /\ forall data,
       update_user user_uuid (inr data) st'
       = (mkResponse (error_body (lit "User not found")) 404, st').
Proof.
  intros Hr Hu Hno st'.
  pose proof (reachable_store_ok _ Hr) as Hok.
  apply Forall_app in Hok as [Hokpre Hokpost].
  assert (Hpre : forall v, In v pre -> uuid_of v <> Some user_uuid)
    by (intros v Hv; apply Hno, in_or_app; now left).
  assert (E : st' = pre ++ post)
    by (unfold st'; now rewrite (delete_user_found user_uuid pre u post Hokpre Hpre Hu)).
  assert (Hok' : store_ok (pre ++ post))
    by (apply Forall_app; split; [exact Hokpre | now inversion Hokpost]).
  rewrite E. split; [reflexivity|]. split.
  - now apply delete_user_absent.
  - intros data. now apply update_user_absent.
Qed.

Lemma delete_then_gone_witness :
  delete_user (str_uuid (uuid4 5)) []
  = (mkResponse (error_body (lit "User not found")) 404, []).
Proof.
  assert (Hr : reachable ([] ++ new_user_of 5 (lit " Ana ") (lit "Lee")
                             (lit "a@x.com") (lit "Acme") (lit "Eng") :: []))
    by exact (serve_reachable [CreateUser (inr (JDict ana)) 5] [] reach_init).
  destruct (delete_then_gone (str_uuid (uuid4 5)) [] _ [] Hr eq_refl)
    as (_ & H & _).
  - intros v [].
  - exact H.
Defined.

(** X13.  A request changes the number of stored records by at most
    one: a registration answered 201 adds one, a deletion answered 200
    takes one away, and everything else leaves the number as it was. *)
Theorem store_size req st :
  length (snd (handle req st))
  = match req with
    | CreateUser _ _ =>
        if (status (fst (handle req st)) =? 201)%Z then S (length st)
        else length st
    | DeleteUser _ =>
        if (status (fst (handle req st)) =? 200)%Z then pred (length st)
        else length st
    | _ => length st
    end.
Proof.
  destruct req as [|gj ur|id gj|id]; simpl.
  - reflexivity.
  - destruct (create_user_cases gj ur st)
      as [(m & ->) | [(m & ->) | (u & _ & ->)]]; simpl; try reflexivity.
    rewrite length_app. simpl. lia.
  - destruct (update_user_cases id gj st)
      as [-> | [(m & ->) | (u & _ & ->)]]; reflexivity.
  - destruct (delete_user_cases id st)
      as [-> | [(m & ->) | (k & u & Hn & ->)]]; cbn [fst snd status Z.eqb];
      try reflexivity.
    destruct (nth_error_split st k Hn) as (pre & post & -> & <-).
    rewrite remove_at_middle, !length_app. simpl. lia.
Qed.

(** X14.  After a deletion answered 200, the listing is the listing of
    before with one entry taken out, and that entry is the record the
    deletion answered with. *)
Theorem delete_then_list user_uuid st :
  status (fst (delete_user user_uuid st)) = 200%Z ->
  exists before removed after,
    fst (get_users st) = listing (before ++ removed :: after)
    /\ body (fst (delete_user user_uuid st))
       = JDict [(lit "message", JStr (lit "User deleted successfully"));
                (lit "user", removed)]
    /\ fst (get_users (snd (delete_user user_uuid st)))
       = listing (before ++ after).
Proof.
  intros H.
  destruct (delete_user_cases user_uuid st)
    as [E | [(m & E) | (k & u & Hn & E)]]; rewrite E in *;
    try discriminate H.
  destruct (nth_error_split st k Hn) as (pre & post & -> & <-).
  exists (map json_of_user pre), (json_of_user u), (map json_of_user post).
  cbn [fst snd body]. rewrite remove_at_middle.
  unfold get_users, listing, jsonify. cbn [fst].
  rewrite !map_app. repeat split; reflexivity.
Qed.

Lemma delete_then_list_witness :
  exists before removed after,
    fst (get_users one_user) = listing (before ++ removed :: after)
    /\ body (fst (delete_user (str_uuid (uuid4 5)) one_user))
       = JDict [(lit "message", JStr (lit "User deleted successfully"));
                (lit "user", removed)]
    /\ fst (get_users (snd (delete_user (str_uuid (uuid4 5)) one_user)))
       = listing (before ++ after).
Proof. exact (delete_then_list (str_uuid (uuid4 5)) one_user eq_refl). Defined.

(** X15.  Identifiers stay unique as long as the random draws do not
    collide: a request keeps the stored identifiers pairwise different
    when, for a registration, the identifier drawn is not one already
    stored. *)
Theorem handle_uuids_unique req st :
  uuids_unique st -> fresh_draw req st -> uuids_unique (snd (handle req st)).
Proof.
  unfold uuids_unique. intros Hu Hfresh.
  destruct req as [|gj ur|id gj|id]; simpl.
  - exact Hu.
  - destruct (create_user_cases gj ur st)
      as [(m & E) | [(m & E) | (u & _ & E)]]; try (rewrite E; exact Hu).
    assert (H201 : status (fst (create_user gj ur st)) = 201%Z) by now rewrite E.
    destruct (create_user_201_inv gj ur st H201)
      as (d & n & s & e & c & j & _ & _ & _ & _ & _ & _ & _ & ->).
    simpl. rewrite map_app. simpl. rewrite new_user_uuid.
    apply NoDup_snoc; [exact Hu|].
    intros Hin. apply in_map_iff in Hin as (w & Hw & Hin).
    exact (Hfresh w Hin Hw).
  - destruct (update_user_cases id gj st)
      as [-> | [(m & ->) | (u & _ & ->)]]; exact Hu.
  - destruct (delete_user_cases id st)
      as [-> | [(m & ->) | (k & u & Hn & ->)]]; cbn [snd]; auto.
    destruct (nth_error_split st k Hn) as (pre & post & -> & <-).
    rewrite remove_at_middle.
    rewrite map_app in *. simpl in Hu.
    now apply NoDup_remove_1 in Hu.
Qed.

Lemma handle_uuids_unique_witness :
  uuids_unique (snd (handle (CreateUser (inr (JDict bob)) 6) one_user)).
Proof.
  apply handle_uuids_unique.
  - unfold uuids_unique. repeat constructor. intros [].
  - intros u [<- | []]. vm_compute. discriminate.
Defined.
